(** * csv_handler_tool: the request handlers of [backend_v2.py]

    The four FastAPI handlers ([csv_overview], [missing_values],
    [visualize_data], [clean_data]) are single passes over a pandas
    [DataFrame].  The development embeds the handlers as functions over a
    columnar model of a frame and proves the properties the specification
    states about them.

    Layout: Part I holds every definition (scalars, frames, the pandas
    operations the handlers call, the handlers, concrete inputs); Part II
    holds the lemmas and theorems. *)

From stdpp Require Import base decidable option list sorting strings gmap fin_maps.
From Stdlib Require Import ZArith Lia.

(* ===================================================================== *)
(** * Part I: definitions                                                 *)
(* ===================================================================== *)

(** ** Numeric scalars

    Cells of [int64] and [float64] columns hold numbers whose arithmetic is
    numpy's.  The handlers never compute on them directly: they call
    [sum], [median], [describe] and the comparison used by [sort_values].
    These routines are the interface below; a missing result ([None])
    stands for NaN. *)

Class Scalar (num : Type) := {
  num_eq_dec :: EqDecision num;
  num_le : relation num;
  num_le_dec :: RelDecision num_le;
  num_le_total :: Total num_le;
  num_le_trans :: Transitive num_le;
  (** [float(k)] for a count [k] *)
  num_of_nat : nat → num;
  (** [Series.sum()] of the non-missing entries (an empty sum is zero) *)
  num_sum : list num → num;
  (** [Series.median()] of the non-missing entries *)
  num_median : list num → option num;
  (** the statistics of [describe()] other than the count, by label *)
  num_stat : string → list num → option num;
  (** whether [json.dumps(..., allow_nan=False)] accepts the number *)
  num_finite : num → bool;
}.

(** ** Exceptions *)

Inductive result (A : Type) : Type :=
  | Ok (a : A)
  | Raise (e : string).
Arguments Ok {A} a.
Arguments Raise {A} e.

#[global] Instance result_ret : MRet result := λ A a, Ok a.
#[global] Instance result_bind : MBind result := λ A B f m,
  match m with
  | Ok a => f a
  | Raise e => Raise e
  end.

(** [str(KeyError(label))]: the label between quotes *)
Definition KeyError (label : string) : string := "'" +:+ label +:+ "'".

(** [try: body / except Exception as e: handler(str(e))] *)
Definition try_except {A} (body : result A) (handler : string → result A) : result A :=
  match body with
  | Ok a => Ok a
  | Raise e => handler e
  end.

(** ** Frames *)

Inductive np_dtype := int64 | float64 | bool_ | object.

#[global] Instance np_dtype_eq_dec : EqDecision np_dtype.
Proof. solve_decision. Defined.

(** [x.name] of a dtype *)
Definition dtype_name (d : np_dtype) : string :=
  match d with
  | int64 => "int64"
  | float64 => "float64"
  | bool_ => "bool"
  | object => "object"
  end.

Inductive value (num : Type) : Type :=
  | VNum (x : num)
  | VStr (s : string)
  | VBool (b : bool).
Arguments VNum {num} x.
Arguments VStr {num} s.
Arguments VBool {num} b.

(** A cell is a value or is missing (NaN): [None]. *)
Abbreviation cell num := (option (value num)).

(** A column of a frame: label, dtype and one cell per row. *)
Record Series (num : Type) : Type := mkSeries {
  name : string;
  dtype : np_dtype;
  values : list (cell num);
}.
Arguments mkSeries {num} name dtype values.
Arguments name {num} _.
Arguments dtype {num} _.
Arguments values {num} _.

(** A frame: the length of its index and its columns, in order. *)
Record DataFrame (num : Type) : Type := mkDataFrame {
  index : nat;
  columns : list (Series num);
}.
Arguments mkDataFrame {num} index columns.
Arguments index {num} _.
Arguments columns {num} _.

(** ** JSON bodies and responses *)

Inductive jvalue (num : Type) : Type :=
  | JInt (n : nat)
  | JFloat (x : option num)
  | JStr (s : string)
  | JBool (b : bool).
Arguments JInt {num} n.
Arguments JFloat {num} x.
Arguments JStr {num} s.
Arguments JBool {num} b.

Inductive content (num : Type) : Type :=
  | error_content (error : string)
  | overview_content (num_rows num_columns : nat)
      (numeric_summary : gmap string (gmap string (jvalue num)))
      (column_types : gmap string string)
      (column_list : list string)
  | missing_content (missing_values_count missing_data_distribution : gmap string nat).
Arguments error_content {num} error.
Arguments overview_content {num} num_rows num_columns numeric_summary column_types column_list.
Arguments missing_content {num} missing_values_count missing_data_distribution.

Inductive response (num image : Type) : Type :=
  | JSONResponse (body : content num) (status_code : nat)
  | StreamingResponse (buffer : image) (media_type : string)
  | FileResponse (path media_type filename : string).
Arguments JSONResponse {num image} body status_code.
Arguments StreamingResponse {num image} buffer media_type.
Arguments FileResponse {num image} path media_type filename.

Definition DATABASE_FILE : string := "cleaned_data.db".

(** ** The pandas operations the handlers call

    Each definition models the library call named in its comment, on the
    columnar frame above.  Values of different kinds are distinct; a column of
    a parsed frame never mixes kinds. *)

Section pandas.
Context {num : Type} `{!Scalar num}.

#[global] Instance value_eq_dec : EqDecision (value num).
Proof. solve_decision. Defined.

Definition is_str (v : value num) : bool :=
  match v with VStr _ => true | _ => false end.

(** Booleans compare as 0 and 1. *)
Definition numeric (v : value num) : num :=
  match v with
  | VNum x => x
  | VBool b => num_of_nat (if b then 1 else 0)
  | VStr _ => num_of_nat 0
  end.

(** The order in which labels are sorted: numbers by value, text
    lexicographically, numbers before text. *)
Definition value_le (a b : value num) : Prop :=
  match a, b with
  | VStr s, VStr t => String.le s t
  | VStr _, _ => False
  | _, VStr _ => True
  | _, _ => num_le (numeric a) (numeric b)
  end.

#[global] Instance value_le_dec : RelDecision value_le.
Proof. intros [x|s|b] [y|t|c]; simpl; apply _. Defined.

#[global] Instance value_le_total : Total value_le.
Proof.
  intros [x|s|b] [y|t|c]; simpl; auto; try apply (total num_le).
  apply (total String.le).
Qed.

(** [s.isnull()] *)
Definition isnull (s : list (cell num)) : list bool :=
  map (λ c, bool_decide (c = None)) s.

(** [s.notna()] *)
Definition notna (s : list (cell num)) : list bool :=
  map (λ c, bool_decide (c ≠ None)) s.

(** [mask.sum()]: the number of [True] entries *)
Definition sum_bool (mask : list bool) : nat :=
  length (filter (λ b, b = true) mask).

(** [df.isnull().sum()]: per column label, the number of missing cells *)
Definition isnull_sum (df : DataFrame num) : list (string * nat) :=
  map (λ s, (name s, sum_bool (isnull (values s)))) (columns df).

(** [s[s > 0]] on a series of counts *)
Definition positive (s : list (string * nat)) : list (string * nat) :=
  filter (λ p, 0 < p.2) s.

(** [s.to_dict()]: entries are inserted in order, a later one replaces an
    earlier one with the same key *)
Definition to_dict {V} (s : list (string * V)) : gmap string V :=
  foldl (λ m p, <[p.1 := p.2]> m) ∅ s.

(** [df.shape] *)
Definition shape (df : DataFrame num) : nat * nat :=
  (index df, length (columns df)).

(** [s[mask]]: boolean indexing *)
Fixpoint getitem_mask {A} (mask : list bool) (l : list A) : list A :=
  match mask, l with
  | b :: mask, x :: l => if b then x :: getitem_mask mask l else getitem_mask mask l
  | _, _ => []
  end.

(** [df[mask]] *)
Definition loc (df : DataFrame num) (mask : list bool) : DataFrame num :=
  mkDataFrame (sum_bool mask)
    (map (λ s, mkSeries (name s) (dtype s) (getitem_mask mask (values s))) (columns df)).

(** [df.notna().all(axis=1)] *)
Definition notna_all (df : DataFrame num) : list bool :=
  foldr (λ s acc, zip_with andb (notna (values s)) acc)
        (replicate (index df) true) (columns df).

(** [df.dropna()] *)
Definition dropna (df : DataFrame num) : DataFrame num :=
  loc df (notna_all df).

(** Whether a column of dtype [d] holds [v] without a change of dtype. *)
Definition holds (d : np_dtype) (v : value num) : bool :=
  match d, v with
  | object, _ => true
  | (int64 | float64), VNum _ => true
  | bool_, VBool _ => true
  | _, _ => false
  end.

(** [s.fillna(v)]: a column without missing cells is returned as it is; a
    column that cannot hold [v] becomes [object]. *)
Definition Series_fillna (v : value num) (s : Series num) : Series num :=
  if bool_decide (None ∈ values s)
  then mkSeries (name s) (if holds (dtype s) v then dtype s else object)
                (map (λ c, Some (default v c)) (values s))
  else s.

(** [df.fillna(v)] *)
Definition fillna (v : value num) (df : DataFrame num) : DataFrame num :=
  mkDataFrame (index df) (map (Series_fillna v) (columns df)).

(** [s.dropna()] as a list of values *)
Definition nonnull (s : list (cell num)) : list (value num) := omap id s.

(** The numbers a column holds, missing cells skipped. *)
Definition numbers (s : list (cell num)) : list num :=
  omap (λ c, match c with Some (VNum x) => Some x | _ => None end) s.

(** [pd.unique]: the distinct values in order of first appearance *)
Fixpoint unique (l : list (value num)) : list (value num) :=
  match l with
  | [] => []
  | x :: l => x :: filter (λ y, y ≠ x) (unique l)
  end.

Definition count_of (x : value num) (l : list (value num)) : nat :=
  length (filter (λ y, y = x) l).

(** [np.sort] of an object array raises [TypeError] when it compares text
    with a number or boolean; [mode] then keeps the modes unsorted. *)
Definition sortable (l : list (value num)) : bool :=
  forallb is_str l || forallb (λ v, negb (is_str v)) l.

(** [s.mode()]: the most frequent non-missing values, sorted when they can
    be; empty when the column has no value. *)
Definition mode (s : list (cell num)) : list (value num) :=
  let vals := nonnull s in
  let keys := unique vals in
  let top := foldr max 0 (map (λ k, count_of k vals) keys) in
  let modes := filter (λ k, count_of k vals = top) keys in
  if sortable modes then merge_sort value_le modes else modes.

(** [s[0]] on a series with the default index: [KeyError: 0] when empty *)
Definition getitem0 (l : list (value num)) : result (value num) :=
  match l with
  | x :: _ => Ok x
  | [] => Raise "0"
  end.

(** [df.select_dtypes(include=...)] *)
Definition select_dtypes (include : np_dtype → bool) (df : DataFrame num) : DataFrame num :=
  mkDataFrame (index df) (filter (λ s, include (dtype s) = true) (columns df)).

(** [include=['object', 'category']]; a parsed frame has no categorical dtype *)
Definition object_or_category (d : np_dtype) : bool :=
  match d with object => true | _ => false end.

(** [include=['number']] and [np.number]: booleans are not numbers *)
Definition number (d : np_dtype) : bool :=
  match d with int64 | float64 => true | _ => false end.

(** Descending order of the counts. *)
Definition count_desc (a b : value num * nat) : Prop := b.2 ≤ a.2.

#[global] Instance count_desc_dec : RelDecision count_desc.
Proof. intros a b. unfold count_desc. apply _. Defined.

(** [s.value_counts()]: count per distinct non-missing value, by descending
    count.  The order among equal counts is left open by the library's sort;
    no statement below depends on it. *)
Definition value_counts (s : list (cell num)) : list (value num * nat) :=
  let vals := nonnull s in
  merge_sort count_desc (map (λ k, (k, count_of k vals)) (unique vals)).

(** [s.head(n)]: the first [n] entries; all but the last [-n] when [n < 0] *)
Definition head_n {A} (n : Z) (l : list A) : list A :=
  if bool_decide (0 ≤ n)%Z then take (Z.to_nat n) l
  else take (length l - Z.to_nat (- n)) l.

(** [s.isin(labels)] *)
Definition isin (s : list (cell num)) (labels : list (value num)) : list bool :=
  map (λ c, match c with Some v => bool_decide (v ∈ labels) | None => false end) s.

(** The sum of one group of a column: numbers are summed with missing cells
    skipped and booleans are counted.  Sums of an [object] column are not
    numeric data: [.plot] rejects them with [TypeError]. *)
Definition group_sum (d : np_dtype) (cells : list (cell num)) : result num :=
  match d with
  | int64 | float64 => Ok (num_sum (numbers cells))
  | bool_ => Ok (num_of_nat (length (filter (λ c, c = Some (VBool true)) cells)))
  | object => Raise "no numeric data to plot"
  end.

(** [df.groupby(by)[s].sum()]: one entry per distinct non-missing label of
    [by], labels sorted *)
Definition groupby_sum (by_ : list (cell num)) (s : Series num) : result (list (value num * num)) :=
  mapM (λ k, x ← group_sum (dtype s)
                 (getitem_mask (map (λ c, bool_decide (c = Some k)) by_) (values s));
             mret (k, x))
       (merge_sort value_le (unique (nonnull by_))).

(** Descending order of the sums. *)
Definition sum_desc (a b : value num * num) : Prop := num_le b.2 a.2.

#[global] Instance sum_desc_dec : RelDecision sum_desc.
Proof. intros a b. unfold sum_desc. apply _. Defined.

(** [s.sort_values(ascending=False)]; the order among equal sums is left open
    by the library's sort, and no statement below depends on it. *)
Definition sort_values_desc (s : list (value num * num)) : list (value num * num) :=
  merge_sort sum_desc s.

(** [df[label]]: [KeyError(label)] when no column has the label *)
Definition getitem (df : DataFrame num) (label : string) : result (Series num) :=
  match list_find (λ s, name s = label) (columns df) with
  | Some (_, s) => Ok s
  | None => Raise (KeyError label)
  end.

(** [df.groupby(by)[label]]: the selection of the column to aggregate
    raises [KeyError('Column not found: <label>')] when no column has the
    label *)
Definition groupby_getitem (df : DataFrame num) (label : string) : result (Series num) :=
  match getitem df label with
  | Ok s => Ok s
  | Raise _ => Raise (KeyError ("Column not found: " +:+ label))
  end.

(** *** [describe] *)

Definition jvalue_of (v : value num) : jvalue num :=
  match v with
  | VNum x => JFloat (Some x)
  | VStr s => JStr s
  | VBool b => JBool b
  end.

(** [describe_numeric_1d] *)
Definition describe_numeric_1d (s : Series num) : list (string * jvalue num) :=
  let xs := numbers (values s) in
  ("count", JFloat (Some (num_of_nat (length xs))))
    :: map (λ l, (l, JFloat (num_stat l xs)))
           ["mean"; "std"; "min"; "25%"; "50%"; "75%"; "max"].

(** [describe_categorical_1d] *)
Definition describe_categorical_1d (s : Series num) : list (string * jvalue num) :=
  let objcounts := value_counts (values s) in
  let top_freq :=
    match objcounts with
    | (v, n) :: _ => (jvalue_of v, JInt n)
    | [] => (JFloat None, JFloat None)
    end in
  [("count", JInt (length (nonnull (values s))));
   ("unique", JInt (length objcounts));
   ("top", top_freq.1); ("freq", top_freq.2)].

(** [df.describe()]: the numeric columns when there is one, every column
    otherwise *)
Definition describe (df : DataFrame num) : result (list (string * list (string * jvalue num))) :=
  match columns df with
  | [] => Raise "Cannot describe a DataFrame without columns"
  | _ =>
    let data := select_dtypes number df in
    match columns data with
    | [] => Ok (map (λ s, (name s, describe_categorical_1d s)) (columns df))
    | _ => Ok (map (λ s, (name s, describe_numeric_1d s)) (columns data))
    end
  end.

(** [df.describe().to_dict()] *)
Definition describe_to_dict (d : list (string * list (string * jvalue num)))
  : gmap string (gmap string (jvalue num)) :=
  to_dict (map (λ p, (p.1, to_dict p.2)) d).

(** *** JSON rendering

    [JSONResponse(content=...)] renders its body when it is built, with
    [allow_nan=False]: a NaN or infinite number raises [ValueError]. *)

Definition jvalue_compliant (j : jvalue num) : bool :=
  match j with
  | JFloat None => false
  | JFloat (Some x) => num_finite x
  | _ => true
  end.

Definition compliant (c : content num) : bool :=
  match c with
  | overview_content _ _ summary _ _ =>
      bool_decide (map_Forall (λ _ col, map_Forall (λ _ j, jvalue_compliant j = true) col) summary)
  | _ => true
  end.

Definition render {image} (c : content num) (status_code : nat) : result (response num image) :=
  if compliant c then Ok (JSONResponse c status_code)
  else Raise "Out of range float values are not JSON compliant".

End pandas.

(** ** Handlers that write the shared file

    [clean_data] reads and replaces the table stored in [cleaned_data.db].
    A computation takes the state of that file and returns a value or an
    exception together with the state it leaves. *)

Definition io (db A : Type) : Type := db → result A * db.

#[global] Instance io_ret {db} : MRet (io db) := λ A a d, (Ok a, d).
#[global] Instance io_bind {db} : MBind (io db) := λ A B f m d,
  match m d with
  | (Ok a, d') => f a d'
  | (Raise e, d') => (Raise e, d')
  end.

(** A computation that does not touch the file. *)
Definition lift {db A} (r : result A) : io db A := λ d, (r, d).

Definition io_try_except {db A} (body : io db A) (handler : string → io db A) : io db A :=
  λ d, match body d with
       | (Ok a, d') => (Ok a, d')
       | (Raise e, d') => handler e d'
       end.

(** [not s] for an optional string: [None] and the empty string are falsy *)
Definition falsy (s : option string) : bool :=
  match s with
  | None => true
  | Some s => bool_decide (s = "")
  end.

Section handlers.
Context {num : Type} `{!Scalar num} {image db : Type}.

(** [series.plot(kind='bar')] followed by [plt.savefig]: the bars are the
    entries of the series, in order. *)
Variable plot_bar : list (value num * num) → result image.

(** [df.to_sql("cleaned_data", conn, if_exists="replace", index=False)] on a
    connection to [DATABASE_FILE] *)
Variable to_sql : DataFrame num → io db ().

(** [df[label] = s] for an existing label: the column is replaced in place *)
Definition setitem (df : DataFrame num) (label : string) (s : Series num) : DataFrame num :=
  match list_find (λ c, name c = label) (columns df) with
  | Some (i, _) => mkDataFrame (index df) (<[i := s]> (columns df))
  | None => df
  end.

(** [for column in labels: df[column].fillna(..., inplace=True)]: the column
    selected by [df[column]] is a view of the frame (pandas without
    copy-on-write), so the update in place replaces the column of [df]. *)
Fixpoint for_columns (labels : list string) (body : Series num → result (Series num))
    (df : DataFrame num) : result (DataFrame num) :=
  match labels with
  | [] => Ok df
  | column :: labels =>
      s ← getitem df column;
      s' ← body s;
      for_columns labels body (setitem df column s')
  end.

(** [df[column].fillna(df[column].mode()[0], inplace=True)] *)
Definition fill_with_mode (s : Series num) : result (Series num) :=
  m ← getitem0 (mode (values s));
  mret (Series_fillna m s).

(** [df[column].fillna(df[column].median(), inplace=True)]; the median of a
    column without values is NaN and filling with NaN changes nothing *)
Definition fill_with_median (s : Series num) : result (Series num) :=
  match num_median (numbers (values s)) with
  | Some m => mret (Series_fillna (VNum m) s)
  | None => mret s
  end.

(** [df.columns.tolist()] *)
Definition labels (df : DataFrame num) : list string := map name (columns df).

(** One pass of [for_columns] read column by column: a selected column is
    replaced by what the body returns for it. *)
Definition column_wise (include : np_dtype → bool) (body : Series num → result (Series num))
    (s : Series num) : Series num :=
  if include (dtype s) then
    match body s with
    | Ok s' => s'
    | Raise _ => s
    end
  else s.

(** [POST /csv-overview/] *)
Definition csv_overview (file : result (DataFrame num)) : result (response num image) :=
  try_except
    (df ← file;
     let '(num_rows, num_columns) := shape df in
     described ← describe df;
     let numeric_summary := describe_to_dict described in
     let column_types := to_dict (map (λ s, (name s, dtype_name (dtype s))) (columns df)) in
     render (overview_content num_rows num_columns numeric_summary column_types (labels df)) 200)
    (λ e, render (error_content e) 400).

(** [POST /missing-values/] *)
Definition missing_values (file : result (DataFrame num)) : result (response num image) :=
  try_except
    (df ← file;
     let missing_data := isnull_sum df in
     let missing_columns := positive missing_data in
     let missing_values_count := to_dict missing_columns in
     render (missing_content missing_values_count (to_dict missing_columns)) 200)
    (λ e, render (error_content e) 400).

(** The series handed to [.plot(kind='bar')] by [visualize_data]. *)
Definition chart (df : DataFrame num) (categorical_column numeric_column : string) (top_n : Z)
  : result (list (value num * num)) :=
  cat ← getitem df categorical_column;
  let top_categories := (head_n top_n (value_counts (values cat))).*1 in
  let filtered_df := loc df (isin (values cat) top_categories) in
  by_ ← getitem filtered_df categorical_column;
  s ← groupby_getitem filtered_df numeric_column;
  sums ← groupby_sum (values by_) s;
  mret (sort_values_desc sums).

(** [POST /visualize/]: no [try] around the body *)
Definition visualize_data (file : result (DataFrame num))
    (categorical_column numeric_column : string) (top_n : Z) : result (response num image) :=
  df ← file;
  bars ← chart df categorical_column numeric_column top_n;
  buffer ← plot_bar bars;
  mret (StreamingResponse buffer "image/png").

(** The tail of [clean_data]: write the table, answer with the file. *)
Definition save (df : DataFrame num) : io db (response num image) :=
  _ ← to_sql df;
  mret (FileResponse DATABASE_FILE "application/x-sqlite3" DATABASE_FILE).

(** [POST /clean-data/] *)
Definition clean_data (file : result (DataFrame num)) (missing_value_strategy : string)
    (fill_value categorical_fill_strategy : option string) : io db (response num image) :=
  io_try_except
    (df ← lift file;
     if bool_decide (missing_value_strategy = "drop") then
       save (dropna df)
     else if bool_decide (missing_value_strategy = "fill") then
       match fill_value with
       | None =>
           lift (render (error_content "Fill value is required for missing value strategy 'fill'.") 400)
       | Some v => save (fillna (VStr v) df)
       end
     else if bool_decide (missing_value_strategy = "fill with mode/median") then
       if falsy categorical_fill_strategy then
         lift (render (error_content "Categorical fill strategy ('Mode' or 'Median') is required.") 400)
       else if bool_decide (categorical_fill_strategy = Some "Mode") then
         df ← lift (for_columns (labels (select_dtypes object_or_category df)) fill_with_mode df);
         save df
       else if bool_decide (categorical_fill_strategy = Some "Median") then
         df ← lift (for_columns (labels (select_dtypes number df)) fill_with_median df);
         save df
       else
         lift (render (error_content "Invalid categorical fill strategy.") 400)
     else
       lift (render (error_content "Invalid missing value strategy.") 400))
    (λ e, lift (render (error_content e) 500)).

(** *** The decision table of the cleaning operation

    The specification lists the client-input errors of [clean_data] and, for
    every other request, the remediation it applies.  Both are written out
    here from that list, to be compared with the handler. *)

(** No fill value under "fill"; a sub-strategy that is absent or is neither
    "Mode" nor "Median" under "fill with mode/median"; an unknown strategy. *)
Definition client_error (strategy : string) (fill_value sub_strategy : option string) : Prop :=
  (strategy = "fill" ∧ fill_value = None) ∨
  (strategy = "fill with mode/median" ∧
     sub_strategy ≠ Some "Mode" ∧ sub_strategy ≠ Some "Median") ∨
  (strategy ≠ "drop" ∧ strategy ≠ "fill" ∧ strategy ≠ "fill with mode/median").

#[global] Instance client_error_dec strategy fill_value sub_strategy :
  Decision (client_error strategy fill_value sub_strategy).
Proof. unfold client_error. apply _. Defined.

(** The remediation a request without client-input error asks for. *)
Definition remediation (strategy : string) (fill_value sub_strategy : option string)
    (df : DataFrame num) : result (DataFrame num) :=
  if bool_decide (strategy = "drop") then Ok (dropna df)
  else if bool_decide (strategy = "fill") then Ok (fillna (VStr (default "" fill_value)) df)
  else if bool_decide (sub_strategy = Some "Mode") then
    for_columns (labels (select_dtypes object_or_category df)) fill_with_mode df
  else
    for_columns (labels (select_dtypes number df)) fill_with_median df.

Definition success : response num image :=
  FileResponse DATABASE_FILE "application/x-sqlite3" DATABASE_FILE.

Definition json_error (message : string) (status_code : nat) : response num image :=
  JSONResponse (error_content message) status_code.

(** The message of a client-input error. *)
Definition client_error_message (strategy : string) (sub_strategy : option string) : string :=
  if bool_decide (strategy = "fill") then
    "Fill value is required for missing value strategy 'fill'."
  else if bool_decide (strategy = "fill with mode/median") then
    if falsy sub_strategy then "Categorical fill strategy ('Mode' or 'Median') is required."
    else "Invalid categorical fill strategy."
  else "Invalid missing value strategy.".

(** The response to an attempt to store [df], and the state it leaves. *)
Definition stored (df : DataFrame num) (d : db) : result (response num image) * db :=
  match to_sql df d with
  | (Ok _, d') => (Ok success, d')
  | (Raise e, d') => (Ok (json_error e 500), d')
  end.

End handlers.

(** ** Parsed frames and the row view *)

Section frames.
Context {num : Type} `{!Scalar num}.

Definition cell_of_dtype (d : np_dtype) (c : cell num) : bool :=
  match d, c with
  | int64, Some (VNum _) => true
  | float64, (None | Some (VNum _)) => true
  | bool_, Some (VBool _) => true
  | _, _ => false
  end.

Definition text_cell (c : cell num) : bool :=
  match c with None | Some (VStr _) => true | _ => false end.

Definition bool_cell (c : cell num) : bool :=
  match c with None | Some (VBool _) => true | _ => false end.

(** What [pd.read_csv] infers for one column of [n] rows: integers and
    booleans without gaps, floats with NaN for gaps, and [object] for text (or
    for booleans with gaps).  A column of [n > 0] rows in which every cell is
    missing is inferred as [float64], so an [object] column of a frame with
    rows holds a value. *)
Definition Series_parsed (n : nat) (s : Series num) : bool :=
  bool_decide (length (values s) = n) &&
  match dtype s with
  | object =>
      (forallb text_cell (values s) || forallb bool_cell (values s)) &&
      (bool_decide (n = 0) || existsb (λ c, bool_decide (c ≠ None)) (values s))
  | d => forallb (cell_of_dtype d) (values s)
  end.

(** A frame as [pd.read_csv] returns it: at least one column, distinct
    labels, columns as long as the index. *)
Definition parsed (df : DataFrame num) : Prop :=
  columns df ≠ [] ∧ NoDup (labels df) ∧
  Forall (λ s, Series_parsed (index df) s = true) (columns df).

#[global] Instance parsed_dec df : Decision (parsed df).
Proof. unfold parsed. apply _. Defined.

(** Every column is as long as the index. *)
Definition aligned (df : DataFrame num) : Prop :=
  Forall (λ s, length (values s) = index df) (columns df).

(** The rows of a frame, each the list of its cells in column order. *)
Definition rows (df : DataFrame num) : list (list (cell num)) :=
  foldr (λ s acc, zip_with cons (values s) acc) (replicate (index df) []) (columns df).

(** A row without a missing cell. *)
Definition complete (row : list (cell num)) : Prop := None ∉ row.

(** The number of missing cells of a column. *)
Definition missing (s : Series num) : nat :=
  length (filter (λ c, c = None) (values s)).

(** The distinct category labels of a column, the number of rows that carry
    a label, and the sum of a second column over those rows. *)
Definition distinct_labels (cat : Series num) : list (value num) :=
  unique (nonnull (values cat)).

Definition label_count (cat : Series num) (l : value num) : nat :=
  count_of l (nonnull (values cat)).

Definition label_sum (cat numc : Series num) (l : value num) : num :=
  num_sum (numbers (getitem_mask (map (λ c, bool_decide (c = Some l)) (values cat))
                                 (values numc))).

(** The labels kept by [head(N)] of the counts, for [N] a number of
    categories. *)
Definition top_labels (N : nat) (cells : list (cell num)) : list (value num) :=
  (take N (value_counts cells)).*1.

End frames.

(** ** The diagnostic script [check_database.py]

    The script reads the table [cleaned_data] of [cleaned_data.db] and prints
    the cells that are NULL.  Its input is the table the file holds, if any;
    its output is the list of lines it prints and the exception that ends it,
    if one is raised. *)

Inductive printed (num : Type) : Type :=
  | null_values_found (column_name : string)
  | null_row (row : nat * cell num)
  | no_null_value_found.
Arguments null_values_found {num} column_name.
Arguments null_row {num} row.
Arguments no_null_value_found {num}.

Section check_database.
Context {num : Type} `{!Scalar num}.

(** [cursor.execute(f"SELECT rowid, {column_name} FROM cleaned_data WHERE
    {column_name} IS NULL")] followed by [fetchall()].  The name is written
    into the statement without quotes, so what SQLite makes of the statement
    depends on the name: the query is a parameter. *)
Variable execute_select : option (DataFrame num) → string → result (list (nat * cell num)).

(** [PRAGMA table_info(cleaned_data)], entry [column[1]] of each row: the
    column names, none when the file has no such table *)
Definition table_info (t : option (DataFrame num)) : list string :=
  match t with
  | Some df => labels df
  | None => []
  end.

(** The loop over the columns: the lines printed so far and the rows
    collected in [null_rows]. *)
Fixpoint check_columns (t : option (DataFrame num)) (columns : list string)
    (out : list (printed num)) (null_rows : list (nat * cell num))
  : list (printed num) * result (list (nat * cell num)) :=
  match columns with
  | [] => (out, Ok null_rows)
  | column_name :: columns =>
      match execute_select t column_name with
      | Raise e => (out, Raise e)
      | Ok [] => check_columns t columns out null_rows
      | Ok null_data =>
          check_columns t columns (out ++ [null_values_found column_name])
                        (null_rows ++ null_data)
      end
  end.

Definition check_database (t : option (DataFrame num)) : list (printed num) * option string :=
  match check_columns t (table_info t) [] [] with
  | (out, Raise e) => (out, Some e)
  | (out, Ok []) => (out ++ [no_null_value_found], None)
  | (out, Ok null_rows) => (out ++ map null_row null_rows, None)
  end.

(** The rows of a column that hold NULL, with their [rowid]: rows are
    numbered from 1 in the order [to_sql] inserted them. *)
Fixpoint select_null_from (rowid : nat) (cells : list (cell num)) : list (nat * cell num) :=
  match cells with
  | [] => []
  | None :: cells => (rowid, None) :: select_null_from (S rowid) cells
  | Some _ :: cells => select_null_from (S rowid) cells
  end.

Definition select_null (s : Series num) : list (nat * cell num) :=
  select_null_from 1 (values s).

(** The columns with at least one NULL. *)
Definition with_null (cols : list (Series num)) : list (Series num) :=
  filter (λ s, 0 < missing s) cols.

(** SQLite reads every interpolated column name of the table as the
    identifier of that column. *)
Definition resolves (df : DataFrame num) : Prop :=
  ∀ s, s ∈ columns df → execute_select (Some df) (name s) = Ok (select_null s).

End check_database.

(** The query as SQLite answers it when every column name of the table is
    written as an identifier: the NULL rows of the column of that name, and
    an error for a name that is no column or a file without the table. *)
Definition select_identifier {num : Type} `{!Scalar num}
    (t : option (DataFrame num)) (column_name : string) : result (list (nat * cell num)) :=
  match t with
  | None => Raise "no such table: cleaned_data"
  | Some df =>
      match getitem df column_name with
      | Ok s => Ok (select_null s)
      | Raise _ => Raise ("no such column: " +:+ column_name)
      end
  end.

(** A store in which [to_sql] always goes through: the file holds the table
    written last. *)
Definition to_sql_replace {num : Type} (df : DataFrame num) : io (option (DataFrame num)) () :=
  λ _, (Ok (), Some df).

(** ** The pages of [frontend_v2.py] that prepare a request

    The Clean Data page builds its request from a select box for the
    strategy, a text input for the fill value and a select box for the
    sub-strategy; [requests.post] does not send a field whose value is
    [None].  [clean_form] is the form as the page sends it; the statements
    about the handler's answer leave out an empty fill text, for which the
    server's binding of the empty field decides what the handler receives. *)

Inductive categorical_choice := choose_Mode | choose_Median.

Inductive strategy_choice :=
  | choose_drop
  | choose_fill (text : string)
  | choose_mode_median (sub_strategy : categorical_choice).

Definition clean_form (c : strategy_choice) : string * option string * option string :=
  match c with
  | choose_drop => ("drop", None, None)
  | choose_fill text => ("fill", Some text, None)
  | choose_mode_median choose_Mode => ("fill with mode/median", None, Some "Mode")
  | choose_mode_median choose_Median => ("fill with mode/median", None, Some "Median")
  end.

(** The request of the page, as the handler receives it. *)
Definition post_clean_data {num : Type} `{!Scalar num} {image db : Type}
    (to_sql : DataFrame num → io db ()) (file : result (DataFrame num))
    (c : strategy_choice) : io db (response num image) :=
  let '(missing_value_strategy, fill_value, categorical_fill_strategy) := clean_form c in
  clean_data to_sql file missing_value_strategy fill_value categorical_fill_strategy.

(** ** Integer scalars

    Exact integer arithmetic, to run the handlers on concrete frames. *)

Definition Z_sum (xs : list Z) : Z := foldr Z.add 0%Z xs.

Definition Z_nth (xs : list Z) (i : nat) : Z := default 0%Z (xs !! i).

Definition Z_median (xs : list Z) : option Z :=
  match xs with
  | [] => None
  | _ =>
    let s := merge_sort Z.le xs in
    Some ((Z_nth s ((length s - 1) / 2) + Z_nth s (length s / 2)) / 2)%Z
  end.

Definition Z_stat (label : string) (xs : list Z) : option Z :=
  let s := merge_sort Z.le xs in
  let n := length s in
  match xs with
  | [] => None
  | _ =>
    if bool_decide (label = "mean") then Some (Z_sum xs / Z.of_nat n)%Z
    else if bool_decide (label = "std") then
      if bool_decide (n ≤ 1) then None
      else
        let m := (Z_sum xs / Z.of_nat n)%Z in
        Some (Z.sqrt (Z_sum (map (λ x, (x - m) * (x - m))%Z xs) / (Z.of_nat n - 1)))%Z
    else if bool_decide (label = "min") then Some (Z_nth s 0)
    else if bool_decide (label = "25%") then Some (Z_nth s ((n - 1) / 4))
    else if bool_decide (label = "50%") then Z_median xs
    else if bool_decide (label = "75%") then Some (Z_nth s (3 * (n - 1) / 4))
    else Some (Z_nth s (n - 1))
  end.

#[global] Instance Z_scalar : Scalar Z := {|
  num_le := Z.le;
  num_of_nat := Z.of_nat;
  num_sum := Z_sum;
  num_median := Z_median;
  num_stat := Z_stat;
  num_finite := λ _, true;
|}.

(** Responses on concrete frames carry the plotted bars as their image, and
    the shared file holds the table last written to it. *)
Definition bars_image (bars : list (value Z * Z)) : result (list (value Z * Z)) := Ok bars.

Definition replace_table (df : DataFrame Z) : io (option (DataFrame Z)) () :=
  λ _, (Ok (), Some df).

(** ** Concrete uploads *)

(** [Manufacturer,Model,Sales_in_thousands] with gaps in every column but
    the second. *)
Definition cars : DataFrame Z :=
  mkDataFrame 6
    [ mkSeries "Manufacturer" object
        [Some (VStr "Audi"); Some (VStr "BMW"); None; Some (VStr "Audi");
         Some (VStr "Fiat"); Some (VStr "BMW")];
      mkSeries "Model" object
        [Some (VStr "A4"); Some (VStr "X5"); Some (VStr "Polo"); Some (VStr "A6");
         Some (VStr "500"); Some (VStr "X3")];
      mkSeries "Sales_in_thousands" float64
        [Some (VNum 20%Z); Some (VNum 17%Z); Some (VNum 9%Z); None;
         Some (VNum 30%Z); Some (VNum 19%Z)] ].

(** The upload [a] followed by a newline: a header and no row. *)
Definition header_only : DataFrame Z :=
  mkDataFrame 0 [ mkSeries "a" object [] ].

(** The upload with the lines [name] and [alice]: one text column. *)
Definition names_only : DataFrame Z :=
  mkDataFrame 1 [ mkSeries "name" object [Some (VStr "alice")] ].

(** The missing-value report of [cars]. *)
Definition cars_missing : gmap string nat :=
  to_dict [("Manufacturer", 1); ("Sales_in_thousands", 1)].

(** [cars.fillna("unknown")] *)
Definition cars_filled : DataFrame Z := fillna (VStr "unknown") cars.

(** The message of [pd.read_csv] on an empty upload. *)
Definition empty_upload : result (DataFrame Z) := Raise "No columns to parse from file".

(** The sections [numeric_summary] and [column_types] of the overview of
    [cars]. *)
Definition cars_summary : gmap string (gmap string (jvalue Z)) :=
  match describe cars with
  | Ok described => describe_to_dict described
  | Raise _ => ∅
  end.

Definition cars_types : gmap string string :=
  to_dict (map (λ s, (name s, dtype_name (dtype s))) (columns cars)).

(** The upload with the lines [x] and [7]: one integer column, one row. *)
Definition one_row : DataFrame Z :=
  mkDataFrame 1 [ mkSeries "x" int64 [Some (VNum 7%Z)] ].

(** The column [Manufacturer] of [cars], in which Audi and BMW both occur
    twice, and the column "Mode" makes of it. *)
Definition manufacturer : Series Z :=
  mkSeries "Manufacturer" object
    [Some (VStr "Audi"); Some (VStr "BMW"); None; Some (VStr "Audi");
     Some (VStr "Fiat"); Some (VStr "BMW")].

Definition manufacturer_filled : Series Z := Series_fillna (VStr "Audi") manufacturer.

(* ===================================================================== *)
(** * Part II: lemmas and theorems                                        *)
(* ===================================================================== *)

(** ** Boolean indexing *)

Section boolean_indexing.
Context {A : Type}.
Implicit Types (mask : list bool) (l : list A).

Lemma getitem_mask_nil mask : getitem_mask mask (@nil A) = [].
Proof. by destruct mask. Qed.

Lemma sum_bool_cons b mask :
  sum_bool (b :: mask) = (if b then 1 else 0) + sum_bool mask.
Proof. unfold sum_bool. rewrite filter_cons. by destruct b. Qed.

Lemma sum_bool_le mask : sum_bool mask ≤ length mask.
Proof. apply length_filter. Qed.

Lemma length_getitem_mask mask l :
  length mask = length l → length (getitem_mask mask l) = sum_bool mask.
Proof.
  revert l. induction mask as [|b mask IH]; intros [|x l] Hlen; try done.
  simpl in Hlen. rewrite sum_bool_cons. destruct b; simpl; rewrite IH; lia.
Qed.

Lemma getitem_mask_replicate mask (x : A) :
  getitem_mask mask (replicate (length mask) x) = replicate (sum_bool mask) x.
Proof.
  induction mask as [|b mask IH]; [done|].
  rewrite sum_bool_cons. destruct b; simpl; by rewrite IH.
Qed.

Lemma getitem_mask_filter (P : A → Prop) `{!∀ x, Decision (P x)} l :
  getitem_mask (map (λ x, bool_decide (P x)) l) l = filter P l.
Proof.
  induction l as [|x l IH]; [done|].
  simpl. rewrite filter_cons, IH. by case_bool_decide; case_decide.
Qed.

End boolean_indexing.

Lemma getitem_mask_zip_with {A B C} (f : A → B → C) mask (l : list A) (k : list B) :
  getitem_mask mask (zip_with f l k)
  = zip_with f (getitem_mask mask l) (getitem_mask mask k).
Proof.
  revert l k. induction mask as [|b mask IH]; intros [|x l] [|y k]; simpl;
    rewrite ?getitem_mask_nil, ?zip_with_nil_r; try done.
  destruct b; simpl; by rewrite IH.
Qed.

(** ** Rows and [dropna] *)

Section rows.
Context {num : Type} `{!Scalar num}.
Implicit Types (df : DataFrame num) (s : Series num).

Lemma parsed_aligned df : parsed df → aligned df.
Proof.
  intros (_ & _ & Hcols). unfold aligned.
  eapply Forall_impl; [exact Hcols|]. intros s Hs. unfold Series_parsed in Hs.
  apply andb_prop in Hs as [Hlen _]. by apply bool_decide_eq_true in Hlen.
Qed.

Lemma length_rows df : aligned df → length (rows df) = index df.
Proof.
  unfold aligned, rows. induction 1 as [|s cols Hs _ IH]; simpl.
  - by rewrite length_replicate.
  - rewrite length_zip_with. lia.
Qed.

Lemma rows_loc df mask :
  length mask = index df → rows (loc df mask) = getitem_mask mask (rows df).
Proof.
  intros Hlen. unfold rows, loc. simpl. rewrite <- Hlen.
  induction (columns df) as [|s cols IH]; simpl.
  - by rewrite getitem_mask_replicate.
  - by rewrite getitem_mask_zip_with, IH.
Qed.

Lemma notna_all_rows df :
  notna_all df = map (λ row, bool_decide (complete row)) (rows df).
Proof.
  unfold notna_all, rows. induction (columns df) as [|s cols IH]; simpl.
  - induction (index df) as [|n IHn]; simpl; [done|]. by rewrite <- IHn.
  - rewrite IH. clear IH. generalize (foldr (λ s acc, zip_with cons (values s) acc)
      (replicate (index df) []) cols) as acc.
    induction (values s) as [|c cs IHc]; intros [|row acc]; simpl; try done.
    rewrite IHc. f_equal. unfold complete.
    destruct c as [v|]; simpl; [|done].
    apply bool_decide_ext. rewrite not_elem_of_cons. intuition discriminate.
Qed.

Lemma rows_dropna df :
  aligned df → rows (dropna df) = filter complete (rows df).
Proof.
  intros Hal. unfold dropna. rewrite rows_loc.
  - rewrite notna_all_rows. apply getitem_mask_filter.
  - rewrite notna_all_rows, length_map. by apply length_rows.
Qed.

Lemma aligned_loc df mask : length mask = index df → aligned df → aligned (loc df mask).
Proof.
  intros Hlen Hal. unfold aligned, loc in *. simpl.
  apply Forall_map. eapply Forall_impl; [exact Hal|]. intros s Hs. simpl.
  apply length_getitem_mask. congruence.
Qed.

Lemma length_notna_all df : aligned df → length (notna_all df) = index df.
Proof. intros. rewrite notna_all_rows, length_map. by apply length_rows. Qed.

End rows.

(** ** [fillna] *)

Section fillna.
Context {num : Type} `{!Scalar num}.
Implicit Types (df : DataFrame num) (s : Series num) (v : value num).

Lemma fill_cells_id v (l : list (cell num)) :
  None ∉ l → map (λ c, Some (default v c)) l = l.
Proof.
  induction l as [|c l IH]; [done|].
  rewrite not_elem_of_cons. intros [Hc Hl]. simpl. rewrite IH by done.
  by destruct c.
Qed.

Lemma values_Series_fillna v s :
  values (Series_fillna v s) = map (λ c, Some (default v c)) (values s).
Proof.
  unfold Series_fillna. case_bool_decide; [done|]. by rewrite fill_cells_id.
Qed.

Lemma name_Series_fillna v s : name (Series_fillna v s) = name s.
Proof. unfold Series_fillna. by case_bool_decide. Qed.

Lemma missing_Series_fillna v s : missing (Series_fillna v s) = 0.
Proof.
  unfold missing. rewrite values_Series_fillna.
  induction (values s) as [|c l IH]; [done|].
  simpl. rewrite filter_cons. by case_decide.
Qed.

Lemma labels_fillna v df : labels (fillna v df) = labels df.
Proof.
  unfold labels, fillna. simpl. rewrite <- list_fmap_compose.
  apply list_fmap_ext. intros _ s _. apply name_Series_fillna.
Qed.

Lemma lookup_fillna v df j s :
  columns df !! j = Some s → columns (fillna v df) !! j = Some (Series_fillna v s).
Proof. intros Hj. unfold fillna. simpl. by rewrite list_lookup_fmap, Hj. Qed.

End fillna.

(** ** The cleaning handler against its decision table *)

Section clean_data.
Context {num : Type} `{!Scalar num} {image db : Type}.
Variable to_sql : DataFrame num → io db ().
Implicit Types (df : DataFrame num) (d : db) (file : result (DataFrame num)).

Lemma clean_data_table file strategy fill_value sub_strategy d :
  clean_data (image:=image) to_sql file strategy fill_value sub_strategy d =
  match file with
  | Raise e => (Ok (json_error e 500), d)
  | Ok df =>
    if decide (client_error strategy fill_value sub_strategy)
    then (Ok (json_error (client_error_message strategy sub_strategy) 400), d)
    else match remediation strategy fill_value sub_strategy df with
         | Raise e => (Ok (json_error e 500), d)
         | Ok df' => stored to_sql df' d
         end
  end.
Proof.
  destruct file as [df|e]; [|done].
  unfold clean_data, io_try_except, stored, remediation, client_error_message,
    save, lift, mbind, io_bind, mret, io_ret, render. simpl.
  destruct (decide (client_error strategy fill_value sub_strategy)) as [Hce|Hce];
    unfold client_error in Hce.
  - destruct Hce as [[-> ->]|[(-> & Hmode & Hmedian)|(Hdrop & Hfill & Hmm)]]; simpl.
    + done.
    + rewrite (bool_decide_eq_false_2 _ Hmode), (bool_decide_eq_false_2 _ Hmedian).
      by destruct (falsy sub_strategy).
    + by rewrite (bool_decide_eq_false_2 _ Hdrop), (bool_decide_eq_false_2 _ Hfill),
        (bool_decide_eq_false_2 _ Hmm).
  - case_bool_decide as Hdrop; [by destruct (to_sql _ d) as [[[]|?] ?]|].
    case_bool_decide as Hfill.
    { destruct fill_value as [v|]; [|tauto]. simpl.
      by destruct (to_sql _ d) as [[[]|?] ?]. }
    case_bool_decide as Hmm; [|tauto].
    assert (falsy sub_strategy = false) as ->.
    { destruct sub_strategy as [s|]; simpl; [|intuition congruence].
      apply bool_decide_eq_false. intros ->. intuition congruence. }
    case_bool_decide as Hmode.
    { destruct (for_columns _ _ df) as [df'|e]; simpl; [|done].
      by destruct (to_sql _ d) as [[[]|?] ?]. }
    case_bool_decide as Hmedian; [|tauto].
    destruct (for_columns _ _ df) as [df'|e]; simpl; [|done].
    by destruct (to_sql _ d) as [[[]|?] ?].
Qed.

Lemma stored_ok df d d' : to_sql df d = (Ok (), d') → stored (image:=image) to_sql df d = (Ok success, d').
Proof. unfold stored. by intros ->. Qed.

Lemma not_client_error_drop fill_value sub_strategy :
  ¬ client_error "drop" fill_value sub_strategy.
Proof. unfold client_error. intros [[? _]|[[? _]|[? _]]]; done. Qed.

Lemma not_client_error_fill X sub_strategy :
  ¬ client_error "fill" (Some X) sub_strategy.
Proof. unfold client_error. intros [[_ ?]|[[? _]|(_ & ? & _)]]; done. Qed.

(** C1. For every table [df] and every supplied fill value [X], cleaning
    with strategy "fill" raises no validation error and hands
    [df.fillna(X)] to the store; when the write goes through the response is
    the database file.  The table has the rows and labels of [df], no missing
    cell, [X] in every cell that was missing, and every other cell as it was. *)
Theorem clean_data_fill df (X : string) sub_strategy d d' :
  to_sql (fillna (VStr X) df) d = (Ok (), d') →
  clean_data (image:=image) to_sql (Ok df) "fill" (Some X) sub_strategy d = (Ok success, d') ∧
  index (fillna (VStr X) df) = index df ∧
  labels (fillna (VStr X) df) = labels df ∧
  Forall (λ s, missing s = 0) (columns (fillna (VStr X) df)) ∧
  ∀ j s, columns df !! j = Some s →
    ∃ s', columns (fillna (VStr X) df) !! j = Some s' ∧ name s' = name s ∧
      length (values s') = length (values s) ∧
      ∀ i, (values s !! i = Some None → values s' !! i = Some (Some (VStr X))) ∧
           (∀ v, values s !! i = Some (Some v) → values s' !! i = Some (Some v)).
Proof.
  intros Hsql. split; [|split; [done|split; [|split]]].
  - rewrite clean_data_table.
    destruct (decide _) as [Hce|_]; [by apply not_client_error_fill in Hce|].
    unfold remediation. simpl. by apply stored_ok.
  - apply labels_fillna.
  - unfold fillna. simpl. apply Forall_map, Forall_forall.
    intros s _. apply missing_Series_fillna.
  - intros j s Hj. exists (Series_fillna (VStr X) s).
    split; [by apply lookup_fillna|]. split; [apply name_Series_fillna|].
    rewrite values_Series_fillna. split; [by rewrite length_map|].
    intros i. split; [|intros v]; intros Hi; by rewrite list_lookup_fmap, Hi.
Qed.

(** C3. For every parsed table [df], cleaning with strategy "drop" hands
    [df.dropna()] to the store and answers with the database file when the
    write goes through.  The rows of that table are exactly the rows of [df]
    without a missing cell, in their original order; none of them has a
    missing cell and there are at most as many as in [df]. *)
Theorem clean_data_drop df fill_value sub_strategy d d' :
  parsed df →
  to_sql (dropna df) d = (Ok (), d') →
  clean_data (image:=image) to_sql (Ok df) "drop" fill_value sub_strategy d = (Ok success, d') ∧
  rows (dropna df) = filter complete (rows df) ∧
  Forall complete (rows (dropna df)) ∧
  length (rows (dropna df)) = index (dropna df) ∧
  index (dropna df) ≤ index df ∧
  labels (dropna df) = labels df.
Proof.
  intros Hal%parsed_aligned Hsql.
  assert (rows (dropna df) = filter complete (rows df)) as Hrows by by apply rows_dropna.
  split; [|split; [done|split; [|split; [|split]]]].
  - rewrite clean_data_table.
    destruct (decide _) as [Hce|_]; [by apply not_client_error_drop in Hce|].
    unfold remediation. simpl. by apply stored_ok.
  - rewrite Hrows. apply Forall_forall. by intros row [? _]%list_elem_of_filter.
  - apply length_rows, aligned_loc; [by apply length_notna_all|done].
  - unfold dropna, loc. simpl. etransitivity; [apply sum_bool_le|].
    by rewrite length_notna_all.
  - unfold labels, dropna, loc. simpl. rewrite <- list_fmap_compose.
    by apply list_fmap_ext.
Qed.

(** C4 (amended). For every request whose strategy name is not "drop",
    "fill" or "fill with mode/median": when the upload parses the response is
    the client-input error naming the strategy invalid; when it does not
    parse the response is the server error carrying the parser's message; in
    both cases the shared file is left as it was. *)
Theorem clean_data_invalid_strategy file strategy fill_value sub_strategy d :
  strategy ∉ ["drop"; "fill"; "fill with mode/median"] →
  (∀ df, file = Ok df →
     clean_data (image:=image) to_sql file strategy fill_value sub_strategy d
     = (Ok (json_error "Invalid missing value strategy." 400), d)) ∧
  (∀ e, file = Raise e →
     clean_data (image:=image) to_sql file strategy fill_value sub_strategy d
     = (Ok (json_error e 500), d)) ∧
  (clean_data (image:=image) to_sql file strategy fill_value sub_strategy d).2 = d.
Proof.
  intros Hstrategy. rewrite !not_elem_of_cons in Hstrategy.
  destruct Hstrategy as (Hdrop & Hfill & Hmm & _).
  assert (client_error strategy fill_value sub_strategy) as Hce.
  { unfold client_error. auto. }
  rewrite clean_data_table.
  destruct file as [df|e].
  - destruct (decide _) as [_|?]; [|done].
    unfold client_error_message.
    rewrite (bool_decide_eq_false_2 _ Hfill), (bool_decide_eq_false_2 _ Hmm).
    split; [done|]. split; [intros; discriminate|done].
  - split; [intros; discriminate|]. split; [|done]. by intros ? [= ->].
Qed.

(** C5 (amended). The response of [clean_data] is always the database file or a
    structured JSON error with status 400 or 500.  Once the upload has parsed,
    every client-input error (no fill value under "fill", a sub-strategy that
    is absent or neither "Mode" nor "Median" under "fill with mode/median",
    an unknown strategy) is answered with status 400 and leaves the file
    untouched.  Every exception, raised by the parser, by the remediation or
    by the store, is answered with status 500 and its message.  The file is
    the response exactly when nothing was raised. *)
Theorem clean_data_error_classes file strategy fill_value sub_strategy d :
  let r := clean_data (image:=image) to_sql file strategy fill_value sub_strategy d in
  (r.1 = Ok success ∨ (∃ msg, r.1 = Ok (json_error msg 400)) ∨
     (∃ msg, r.1 = Ok (json_error msg 500))) ∧
  (∀ df, file = Ok df → client_error strategy fill_value sub_strategy →
     r = (Ok (json_error (client_error_message strategy sub_strategy) 400), d)) ∧
  (∀ e, file = Raise e → r = (Ok (json_error e 500), d)) ∧
  (∀ df e, file = Ok df → ¬ client_error strategy fill_value sub_strategy →
     remediation strategy fill_value sub_strategy df = Raise e →
     r = (Ok (json_error e 500), d)) ∧
  (∀ df df' e d', file = Ok df → ¬ client_error strategy fill_value sub_strategy →
     remediation strategy fill_value sub_strategy df = Ok df' →
     to_sql df' d = (Raise e, d') →
     r = (Ok (json_error e 500), d')) ∧
  (∀ df df' d', file = Ok df → ¬ client_error strategy fill_value sub_strategy →
     remediation strategy fill_value sub_strategy df = Ok df' →
     to_sql df' d = (Ok (), d') →
     r = (Ok success, d')).
Proof.
  intros r. subst r. rewrite clean_data_table.
  split; [|split; [|split; [|split; [|split]]]].
  - destruct file as [df|e]; [|eauto].
    destruct (decide _); [eauto|].
    destruct (remediation _ _ _ df) as [df'|e]; [|eauto].
    unfold stored. destruct (to_sql df' d) as [[[]|e] d']; eauto.
  - intros df -> Hce. by destruct (decide _).
  - by intros e ->.
  - intros df e -> Hce ->. by destruct (decide _).
  - intros df df' e d' -> Hce -> Hsql. destruct (decide _); [done|].
    unfold stored. by rewrite Hsql.
  - intros df df' d' -> Hce -> Hsql. destruct (decide _); [done|].
    by apply stored_ok.
Qed.

End clean_data.

(** ** Dictionaries *)

Section to_dict.
Context {V : Type}.
Implicit Types (l : list (string * V)) (m : gmap string V).

Lemma lookup_foldl_insert l m k v :
  NoDup l.*1 → (∀ k', k' ∈ l.*1 → m !! k' = None) →
  foldl (λ m p, <[p.1 := p.2]> m) m l !! k = Some v ↔ (k, v) ∈ l ∨ m !! k = Some v.
Proof.
  revert m. induction l as [|[k0 v0] l IH]; intros m Hnd Hfresh; simpl.
  - rewrite elem_of_nil. tauto.
  - simpl in Hnd. apply NoDup_cons in Hnd as [Hk0 Hnd].
    rewrite IH; [|done|].
    + rewrite elem_of_cons. destruct (decide (k0 = k)) as [->|Hne].
      * rewrite lookup_insert_eq, (Hfresh k) by (simpl; left).
        split; [intros [Hin|[= ->]]|intros [[[= ->]|Hin]|?]]; auto; try done.
      * rewrite lookup_insert_ne by done.
        split; [intros [?|?]|intros [[[= <- _]|?]|?]]; auto; done.
    + intros k' Hk'. rewrite lookup_insert_ne by (by intros ->).
      apply Hfresh. simpl. by right.
Qed.

Lemma lookup_to_dict l k v :
  NoDup l.*1 → to_dict l !! k = Some v ↔ (k, v) ∈ l.
Proof.
  intros Hnd. unfold to_dict. rewrite lookup_foldl_insert; [|done|done].
  rewrite lookup_empty. intuition discriminate.
Qed.

End to_dict.

(** ** The missing-value report *)

Section missing_values.
Context {num : Type} `{!Scalar num} {image : Type}.
Implicit Types (df : DataFrame num) (s : Series num).

Lemma sum_bool_isnull s : sum_bool (isnull (values s)) = missing s.
Proof.
  unfold sum_bool, isnull, missing. induction (values s) as [|c l IH]; [done|].
  simpl. rewrite !filter_cons. case_bool_decide; repeat case_decide; simpl; congruence.
Qed.

Lemma isnull_sum_labels df : (isnull_sum df).*1 = labels df.
Proof.
  unfold isnull_sum, labels. rewrite <- list_fmap_compose. by apply list_fmap_ext.
Qed.

Lemma elem_of_positive_isnull_sum df c n :
  (c, n) ∈ positive (isnull_sum df)
  ↔ 0 < n ∧ ∃ s, s ∈ columns df ∧ name s = c ∧ missing s = n.
Proof.
  unfold positive, isnull_sum. rewrite list_elem_of_filter, list_elem_of_fmap. simpl.
  split.
  - intros [Hn (s & [= -> ->] & Hs)]. split; [done|]. exists s. by rewrite sum_bool_isnull.
  - intros [Hn (s & Hs & <- & <-)]. split; [done|]. exists s. by rewrite sum_bool_isnull.
Qed.

Lemma NoDup_positive_isnull_sum df :
  NoDup (labels df) → NoDup (positive (isnull_sum df)).*1.
Proof.
  intros Hnd. rewrite <- isnull_sum_labels in Hnd. unfold positive.
  eapply sublist_NoDup; [exact Hnd|]. apply fmap_sublist, sublist_filter.
Qed.

Lemma missing_values_ok df :
  missing_values (image:=image) (Ok df)
  = Ok (JSONResponse (missing_content (to_dict (positive (isnull_sum df)))
                                      (to_dict (positive (isnull_sum df)))) 200).
Proof. done. Qed.

Lemma missing_values_raise e :
  missing_values (num:=num) (image:=image) (Raise e) = Ok (JSONResponse (error_content e) 400).
Proof. done. Qed.

(** C6. For every parsed table the missing-value report is a 200 response
    whose count mapping holds exactly the columns with at least one missing
    cell, each with its number of missing cells; for a table without missing
    cells the mapping is empty. *)
Theorem missing_values_exact df :
  parsed df →
  ∃ counts distribution,
    missing_values (image:=image) (Ok df)
    = Ok (JSONResponse (missing_content counts distribution) 200) ∧
    (∀ c n, counts !! c = Some n
            ↔ 0 < n ∧ ∃ s, s ∈ columns df ∧ name s = c ∧ missing s = n) ∧
    ((∀ s, s ∈ columns df → missing s = 0) → counts = ∅).
Proof.
  intros (_ & Hnd & _). eexists _, _. split; [apply missing_values_ok|].
  assert (∀ c n, to_dict (positive (isnull_sum df)) !! c = Some n
            ↔ 0 < n ∧ ∃ s, s ∈ columns df ∧ name s = c ∧ missing s = n) as Hlookup.
  { intros c n. rewrite lookup_to_dict by by apply NoDup_positive_isnull_sum.
    apply elem_of_positive_isnull_sum. }
  split; [done|]. intros Hnone. apply map_eq. intros c. rewrite lookup_empty.
  destruct (to_dict _ !! c) as [n|] eqn:Hc; [|done].
  apply Hlookup in Hc as [Hn (s & Hs & _ & Hmiss)]. rewrite (Hnone s Hs) in Hmiss. lia.
Qed.

(** C10. In every successful missing-value report the count mapping and the
    distribution mapping are the same mapping. *)
Theorem missing_values_distribution (file : result (DataFrame num)) counts distribution status :
  missing_values (image:=image) file
  = Ok (JSONResponse (missing_content counts distribution) status) →
  distribution = counts.
Proof.
  destruct file as [df|e].
  - rewrite missing_values_ok. by intros [= <- <- _].
  - rewrite missing_values_raise. discriminate.
Qed.

End missing_values.

(** ** Column lookup *)

Section getitem.
Context {num : Type} `{!Scalar num}.
Implicit Types (df : DataFrame num) (s : Series num).

Lemma getitem_unknown df label :
  label ∉ labels df → getitem df label = Raise (KeyError label).
Proof.
  intros Hnot. unfold getitem.
  destruct (list_find _ (columns df)) as [[i s]|] eqn:Hfind; [|done].
  apply list_find_Some in Hfind as (Hi & Hname & _).
  exfalso. apply Hnot. unfold labels. apply list_elem_of_fmap. exists s.
  split; [done|]. by eapply list_elem_of_lookup_2.
Qed.

Lemma getitem_known df label :
  label ∈ labels df → ∃ s, getitem df label = Ok s ∧ s ∈ columns df ∧ name s = label.
Proof.
  intros (s & -> & Hs)%list_elem_of_fmap. unfold getitem.
  destruct (list_find _ (columns df)) as [[i s']|] eqn:Hfind.
  - apply list_find_Some in Hfind as (Hi & Hname & _).
    exists s'. split; [done|]. split; [by eapply list_elem_of_lookup_2|done].
  - apply list_find_None in Hfind. rewrite Forall_forall in Hfind.
    by destruct (Hfind s Hs).
Qed.

Lemma labels_loc df mask : labels (loc df mask) = labels df.
Proof.
  unfold labels, loc. simpl. rewrite <- list_fmap_compose. by apply list_fmap_ext.
Qed.

End getitem.

(** ** The overview and the handlers that always answer *)

Section responses.
Context {num : Type} `{!Scalar num} {image db : Type}.
Variable plot_bar : list (value num * num) → result image.
Variable to_sql : DataFrame num → io db ().
Implicit Types (df : DataFrame num) (file : result (DataFrame num)).

Lemma describe_numeric df :
  Exists (λ s, number (dtype s) = true) (columns df) →
  describe df
  = Ok (map (λ s, (name s, describe_numeric_1d s))
            (filter (λ s, number (dtype s) = true) (columns df))).
Proof.
  intros Hex. unfold describe, select_dtypes. simpl.
  destruct (columns df) as [|s0 cols] eqn:Hcols; [by apply Exists_nil in Hex|].
  destruct (filter _ (s0 :: cols)) as [|s1 sel] eqn:Hsel; [|done].
  apply Exists_exists in Hex as (s & Hs & Hnum).
  assert (s ∈ filter (λ s, number (dtype s) = true) (s0 :: cols)) as Hin
    by by apply list_elem_of_filter.
  rewrite Hsel in Hin. by apply elem_of_nil in Hin.
Qed.

Lemma describe_no_numeric df :
  columns df ≠ [] → Forall (λ s, number (dtype s) = false) (columns df) →
  describe df = Ok (map (λ s, (name s, describe_categorical_1d s)) (columns df)).
Proof.
  intros Hne Hall. unfold describe, select_dtypes. simpl.
  destruct (columns df) as [|s0 cols] eqn:Hcols; [done|].
  destruct (filter _ (s0 :: cols)) as [|s1 sel] eqn:Hsel; [done|].
  assert (s1 ∈ filter (λ s, number (dtype s) = true) (s0 :: cols)) as Hin
    by (rewrite Hsel; left).
  apply list_elem_of_filter in Hin as [Hnum Hin].
  rewrite Forall_forall in Hall. rewrite (Hall s1 Hin) in Hnum. discriminate.
Qed.

Lemma csv_overview_shape df num_rows num_columns summary types names status :
  csv_overview (image:=image) (Ok df)
  = Ok (JSONResponse (overview_content num_rows num_columns summary types names) status) →
  num_rows = index df ∧ num_columns = length (columns df) ∧ names = labels df.
Proof.
  unfold csv_overview, try_except, shape, render. simpl.
  destruct (describe df) as [described|e]; simpl; [|done].
  case_bool_decide; [|done]. intros Heq. by simplify_eq.
Qed.

Lemma csv_overview_responds file :
  ∃ body status, csv_overview (image:=image) file = Ok (JSONResponse body status).
Proof.
  unfold csv_overview, try_except, render.
  destruct file as [df|e]; simpl; [|eauto].
  destruct (describe df) as [described|e]; simpl; [|eauto].
  case_bool_decide; simpl; eauto.
Qed.

Lemma missing_values_responds file :
  ∃ body status, missing_values (image:=image) file = Ok (JSONResponse body status).
Proof. destruct file as [df|e]; eauto. Qed.

Lemma clean_data_responds file strategy fill_value sub_strategy d :
  ∃ r d', clean_data (image:=image) to_sql file strategy fill_value sub_strategy d = (Ok r, d').
Proof.
  rewrite clean_data_table. destruct file as [df|e]; [|eauto].
  destruct (decide _); [eauto|].
  destruct (remediation _ _ _ df) as [df'|e]; [|eauto].
  unfold stored. destruct (to_sql df' d) as [[[]|e] d']; eauto.
Qed.

Lemma visualize_data_unknown_category df categorical_column numeric_column top_n :
  categorical_column ∉ labels df →
  visualize_data plot_bar (Ok df) categorical_column numeric_column top_n
  = Raise (KeyError categorical_column).
Proof.
  intros Hcat. unfold visualize_data, chart. simpl.
  by rewrite (getitem_unknown df _ Hcat).
Qed.

Lemma visualize_data_unknown_numeric df categorical_column numeric_column top_n :
  categorical_column ∈ labels df → numeric_column ∉ labels df →
  visualize_data plot_bar (Ok df) categorical_column numeric_column top_n
  = Raise (KeyError ("Column not found: " +:+ numeric_column)).
Proof.
  intros Hcat Hnum. unfold visualize_data, chart. simpl.
  destruct (getitem_known df _ Hcat) as (c & -> & _ & _). simpl.
  set (mask := isin _ _).
  destruct (getitem_known (loc df mask) categorical_column) as (c' & -> & _ & _);
    [by rewrite labels_loc|]. simpl.
  unfold groupby_getitem. rewrite getitem_unknown; [done|]. by rewrite labels_loc.
Qed.

(** C9. [visualize_data] does not validate its column parameters: whenever
    the categorical column, or the numeric column, is not a column of the
    table, the handler raises and no response is built, and there are such
    requests (the default parameters on a table with the single column a).
    The other three handlers answer every request. *)
Theorem visualize_data_unvalidated :
  (∀ df categorical_column numeric_column top_n,
     categorical_column ∉ labels df →
     visualize_data plot_bar (Ok df) categorical_column numeric_column top_n
     = Raise (KeyError categorical_column)) ∧
  (∀ df categorical_column numeric_column top_n,
     categorical_column ∈ labels df → numeric_column ∉ labels df →
     visualize_data plot_bar (Ok df) categorical_column numeric_column top_n
     = Raise (KeyError ("Column not found: " +:+ numeric_column))) ∧
  (∃ df e, parsed df ∧
     visualize_data plot_bar (Ok df) "Manufacturer" "Sales_in_thousands" 10 = Raise e) ∧
  (∀ file, ∃ body status, csv_overview (image:=image) file = Ok (JSONResponse body status)) ∧
  (∀ file, ∃ body status, missing_values (image:=image) file = Ok (JSONResponse body status)) ∧
  (∀ file strategy fill_value sub_strategy d, ∃ r d',
     clean_data (image:=image) to_sql file strategy fill_value sub_strategy d = (Ok r, d')).
Proof.
  split; [exact visualize_data_unknown_category|].
  split; [exact visualize_data_unknown_numeric|].
  split; [|split; [exact csv_overview_responds|
           split; [exact missing_values_responds|exact clean_data_responds]]].
  exists (mkDataFrame 0 [mkSeries "a" object []]), (KeyError "Manufacturer"). split.
  - unfold parsed. simpl. split; [done|]. split; [apply NoDup_singleton|].
    by apply Forall_singleton.
  - apply visualize_data_unknown_category. unfold labels. simpl.
    by intros ?%list_elem_of_singleton.
Qed.

End responses.

Section overview_numeric.
Context {num : Type} `{!Scalar num} {image : Type}.
Implicit Types (df : DataFrame num).

(** X8. When the table has a numeric column, the section [numeric_summary] of
    a successful overview has an entry for exactly the numeric columns. *)
Lemma csv_overview_numeric df num_rows num_columns summary types names status :
  parsed df →
  Exists (λ s, number (dtype s) = true) (columns df) →
  csv_overview (image:=image) (Ok df)
  = Ok (JSONResponse (overview_content num_rows num_columns summary types names) status) →
  ∀ label, is_Some (summary !! label)
           ↔ ∃ s, s ∈ columns df ∧ name s = label ∧ number (dtype s) = true.
Proof.
  intros (_ & Hnd & _) Hex. unfold csv_overview, try_except, shape, render. simpl.
  rewrite describe_numeric by done. simpl.
  case_bool_decide; [|done]. intros Heq. simplify_eq. intros label.
  unfold describe_to_dict.
  set (cols := filter (λ s, number (dtype s) = true) (columns df)).
  set (entries := map (λ p, (p.1, to_dict p.2)) _).
  assert (entries.*1 = map name cols) as Hkeys.
  { unfold entries. rewrite <- !list_fmap_compose. by apply list_fmap_ext. }
  assert (NoDup entries.*1) as Hnd'.
  { rewrite Hkeys. eapply sublist_NoDup; [exact Hnd|]. apply fmap_sublist, sublist_filter. }
  split.
  - intros [col Hcol]. apply lookup_to_dict in Hcol; [|done].
    assert (label ∈ entries.*1) as Hin.
    { apply list_elem_of_fmap. by exists (label, col). }
    rewrite Hkeys in Hin. apply list_elem_of_fmap in Hin as (s & -> & Hs).
    unfold cols in Hs. apply list_elem_of_filter in Hs as [Hnum Hs]. by exists s.
  - intros (s & Hs & <- & Hnum).
    exists (to_dict (describe_numeric_1d s)). apply lookup_to_dict; [done|].
    unfold entries. rewrite <- list_fmap_compose.
    apply list_elem_of_fmap. exists s. split; [done|].
    unfold cols. by apply list_elem_of_filter.
Qed.

End overview_numeric.

Section overview_nan.
Context {num : Type} `{!Scalar num} {image : Type}.
Implicit Types (df : DataFrame num) (s : Series num).

Lemma describe_numeric_1d_nan s label :
  label ∈ ["mean"; "std"; "min"; "25%"; "50%"; "75%"; "max"] →
  num_stat label (numbers (values s)) = None →
  to_dict (describe_numeric_1d s) !! label = Some (JFloat None).
Proof.
  intros Hlabel Hnan. apply lookup_to_dict.
  - unfold describe_numeric_1d. simpl. by apply (bool_decide_unpack (NoDup _)).
  - unfold describe_numeric_1d. right. apply list_elem_of_fmap.
    exists label. by rewrite Hnan.
Qed.

(** X7. A statistic that is NaN, such as the standard deviation of a column with
    a single value, makes the overview answer with the error of the JSON
    encoder. *)
Lemma csv_overview_nan df s label :
  parsed df → s ∈ columns df → number (dtype s) = true →
  label ∈ ["mean"; "std"; "min"; "25%"; "50%"; "75%"; "max"] →
  num_stat label (numbers (values s)) = None →
  csv_overview (image:=image) (Ok df)
  = Ok (JSONResponse (error_content "Out of range float values are not JSON compliant") 400).
Proof.
  intros (_ & Hnd & _) Hs Hnum Hlabel Hnan.
  assert (Exists (λ s, number (dtype s) = true) (columns df)) as Hex
    by (apply Exists_exists; eauto).
  unfold csv_overview, try_except, shape, render. simpl.
  rewrite describe_numeric by done. simpl.
  case_bool_decide as Hcompliant; [exfalso|done].
  set (cols := filter (λ s, number (dtype s) = true) (columns df)) in *.
  assert (describe_to_dict (map (λ s, (name s, describe_numeric_1d s)) cols) !! name s
          = Some (to_dict (describe_numeric_1d s))) as Hcol.
  { unfold describe_to_dict. rewrite <- list_fmap_compose. apply lookup_to_dict.
    - rewrite <- list_fmap_compose.
      eapply sublist_NoDup; [exact Hnd|]. apply fmap_sublist, sublist_filter.
    - apply list_elem_of_fmap. exists s. split; [done|].
      unfold cols. by apply list_elem_of_filter. }
  specialize (Hcompliant _ _ Hcol _ _ (describe_numeric_1d_nan s label Hlabel Hnan)).
  discriminate Hcompliant.
Qed.

End overview_nan.

(** C7, on the upload with the single text column [name]: the table has no
    numeric column, and the section [numeric_summary] of the overview holds
    the count, the number of distinct values, the most frequent value and its
    frequency of that text column. *)
Lemma csv_overview_names_only :
  parsed names_only ∧
  Forall (λ s, number (dtype s) = false) (columns names_only) ∧
  ∃ summary types,
    csv_overview (image:=()) (Ok names_only)
    = Ok (JSONResponse (overview_content 1 1 summary types ["name"]) 200) ∧
    summary !! "name"
    = Some (to_dict [("count", JInt 1); ("unique", JInt 1);
                     ("top", JStr "alice"); ("freq", JInt 1)]).
Proof.
  split; [by apply (bool_decide_unpack (parsed names_only))|].
  split; [by apply Forall_singleton|].
  eexists _, _. split; [vm_compute; reflexivity|]. vm_compute. reflexivity.
Qed.

(** ** Distinct values and counts *)

Section unique.
Context {num : Type} `{!Scalar num}.
Implicit Types (l : list (value num)) (x y : value num).

Lemma elem_of_unique l x : x ∈ unique l ↔ x ∈ l.
Proof.
  induction l as [|y l IH]; [done|].
  simpl. rewrite !elem_of_cons, list_elem_of_filter, IH.
  destruct (decide (x = y)); tauto.
Qed.

Lemma NoDup_unique l : NoDup (unique l).
Proof.
  induction l as [|y l IH]; simpl; [constructor|].
  apply NoDup_cons. split.
  - rewrite list_elem_of_filter. tauto.
  - by apply NoDup_filter.
Qed.

Lemma count_of_pos l x : 0 < count_of x l ↔ x ∈ l.
Proof.
  unfold count_of. induction l as [|y l IH]; simpl.
  - rewrite elem_of_nil. lia.
  - rewrite filter_cons, elem_of_cons. case_decide; simpl; [subst|].
    + split; [auto|lia].
    + rewrite IH. split; [auto|]. intros [?|?]; [congruence|done].
Qed.

Lemma foldr_max_bound {A} (f : A → nat) (k : list A) a :
  a ∈ k → f a ≤ foldr max 0 (map f k).
Proof.
  induction k as [|b k IH]; [by intros ?%elem_of_nil|].
  rewrite elem_of_cons. intros [->|Ha]; simpl; [lia|]. specialize (IH Ha). lia.
Qed.

Lemma foldr_max_attained {A} (f : A → nat) (k : list A) :
  k ≠ [] → ∃ a, a ∈ k ∧ f a = foldr max 0 (map f k).
Proof.
  induction k as [|b k IH]; [done|]. intros _. simpl.
  destruct k as [|c k].
  - exists b. split; [left|]. simpl. lia.
  - destruct IH as (a & Ha & Hfa); [done|].
    destruct (decide (f a ≤ f b)).
    + exists b. split; [left|]. lia.
    + exists a. split; [by right|]. lia.
Qed.

End unique.

(** ** The in-place loops of "fill with mode/median" *)

Section in_place.
Context {num : Type} `{!Scalar num}.
Implicit Types (df : DataFrame num) (s : Series num).

Lemma list_find_middle (pre post : list (Series num)) s :
  name s ∉ map name pre →
  list_find (λ c, name c = name s) (pre ++ s :: post) = Some (length pre, s).
Proof.
  intros Hfresh. apply list_find_Some. split; [by rewrite list_lookup_middle|].
  split; [done|]. intros j y Hj Hlt Hname.
  rewrite lookup_app_l in Hj by done.
  apply Hfresh. rewrite <- Hname. apply list_elem_of_fmap. exists y.
  split; [done|]. by eapply list_elem_of_lookup_2.
Qed.

Lemma getitem_middle n pre post s :
  name s ∉ map name pre → getitem (mkDataFrame n (pre ++ s :: post)) (name s) = Ok s.
Proof. intros Hfresh. unfold getitem. simpl. by rewrite list_find_middle. Qed.

Lemma setitem_middle n pre post s s' :
  name s ∉ map name pre →
  setitem (mkDataFrame n (pre ++ s :: post)) (name s) s' = mkDataFrame n (pre ++ s' :: post).
Proof.
  intros Hfresh. unfold setitem. simpl. rewrite list_find_middle by done.
  f_equal. replace (length pre) with (length pre + 0) by lia.
  by rewrite insert_app_r.
Qed.

Lemma for_columns_middle include body n pre post :
  NoDup (map name (pre ++ post)) →
  (∀ s, s ∈ post → include (dtype s) = true → ∃ s', body s = Ok s' ∧ name s' = name s) →
  for_columns (map name (filter (λ s, include (dtype s) = true) post)) body
              (mkDataFrame n (pre ++ post))
  = Ok (mkDataFrame n (pre ++ map (column_wise include body) post)).
Proof.
  revert pre. induction post as [|s post IH]; intros pre Hnd Hbody; [done|].
  assert (name s ∉ map name pre) as Hfresh.
  { rewrite fmap_app in Hnd. apply NoDup_app in Hnd as (_ & Hdisj & _).
    intros Hin. apply (Hdisj _ Hin). simpl. left. }
  rewrite filter_cons. simpl.
  destruct (decide (include (dtype s) = true)) as [Hsel|Hsel].
  - destruct (Hbody s) as (s' & Hs' & Hname); [left|done|].
    assert (column_wise include body s = s') as ->.
    { unfold column_wise. by rewrite Hsel, Hs'. }
    simpl. rewrite getitem_middle by done. simpl. rewrite Hs'. simpl.
    rewrite setitem_middle by done.
    specialize (IH (pre ++ [s'])). rewrite <- !(assoc_L (++)) in IH. simpl in IH.
    apply IH.
    + rewrite fmap_app. simpl. rewrite Hname. by rewrite fmap_app in Hnd.
    + intros s0 Hs0. apply Hbody. by right.
  - assert (column_wise include body s = s) as ->.
    { unfold column_wise. by apply not_true_is_false in Hsel as ->. }
    specialize (IH (pre ++ [s])). rewrite <- !(assoc_L (++)) in IH. simpl in IH.
    apply IH; [done|]. intros s0 Hs0. apply Hbody. by right.
Qed.

Lemma for_columns_column_wise include body df :
  NoDup (labels df) →
  (∀ s, s ∈ columns df → include (dtype s) = true →
        ∃ s', body s = Ok s' ∧ name s' = name s) →
  for_columns (labels (select_dtypes include df)) body df
  = Ok (mkDataFrame (index df) (map (column_wise include body) (columns df))).
Proof.
  intros Hnd Hbody. destruct df as [n cols].
  apply (for_columns_middle include body n [] cols); done.
Qed.

(** *** The most frequent value *)

Lemma getitem0_mode (cells : list (cell num)) :
  nonnull cells ≠ [] →
  ∃ m, getitem0 (mode cells) = Ok m ∧ m ∈ nonnull cells ∧
       ∀ v, count_of v (nonnull cells) ≤ count_of m (nonnull cells).
Proof.
  intros Hvals. unfold mode.
  set (vals := nonnull cells) in *. set (keys := unique vals).
  set (top := foldr max 0 (map (λ k, count_of k vals) keys)).
  set (modes := filter (λ k, count_of k vals = top) keys).
  assert (keys ≠ []) as Hkeys.
  { unfold keys. by destruct vals. }
  destruct (foldr_max_attained (λ k, count_of k vals) keys Hkeys) as (a & Ha & Htop).
  assert (a ∈ modes) as Hmodes by by apply list_elem_of_filter.
  set (sorted := if sortable modes then merge_sort value_le modes else modes).
  assert (sorted ≡ₚ modes) as Hperm.
  { unfold sorted. destruct (sortable modes); [apply merge_sort_Permutation|done]. }
  destruct sorted as [|m rest] eqn:Hsorted.
  { symmetry in Hperm. apply Permutation_nil_r in Hperm. rewrite Hperm in Hmodes.
    by apply elem_of_nil in Hmodes. }
  exists m. split; [done|].
  assert (m ∈ modes) as [Hm Hkey]%list_elem_of_filter.
  { rewrite <- Hperm. left. }
  unfold keys in Hkey. rewrite elem_of_unique in Hkey. split; [done|].
  intros v. rewrite Hm. destruct (decide (v ∈ vals)) as [Hv|Hv].
  - apply (foldr_max_bound (λ k, count_of k vals)). by apply elem_of_unique.
  - apply (not_iff_compat (count_of_pos vals v)) in Hv. lia.
Qed.

Lemma parsed_object_value df s :
  parsed df → 0 < index df → s ∈ columns df → dtype s = object → nonnull (values s) ≠ [].
Proof.
  intros (_ & _ & Hcols) Hrows Hs Hobj.
  rewrite Forall_forall in Hcols. specialize (Hcols s Hs).
  unfold Series_parsed in Hcols. rewrite Hobj in Hcols.
  apply andb_prop in Hcols as [_ Hcols]. apply andb_prop in Hcols as [_ Hcols].
  apply orb_prop in Hcols as [Hzero|Hex].
  { apply bool_decide_eq_true in Hzero. lia. }
  apply existsb_exists in Hex as (c & Hc & Hsome). apply bool_decide_eq_true in Hsome.
  destruct c as [v|]; [|done]. apply list_elem_of_In in Hc.
  intros Hnil. assert (v ∈ nonnull (values s)) as Hv.
  { apply list_elem_of_omap. by exists (Some v). }
  rewrite Hnil in Hv. by apply elem_of_nil in Hv.
Qed.

(** For a parsed table with at least one row, the remediation "Mode"
    succeeds; every [object] column of the result has no missing cell, its
    gaps filled with a most frequent value of the column, and every other
    column is as it was. *)
Lemma remediation_mode df fill_value :
  parsed df → 0 < index df →
  ∃ df', remediation "fill with mode/median" fill_value (Some "Mode") df = Ok df' ∧
    index df' = index df ∧ labels df' = labels df ∧
    ∀ j s, columns df !! j = Some s →
      ∃ s', columns df' !! j = Some s' ∧
        (dtype s = object →
           missing s' = 0 ∧
           ∃ m, m ∈ nonnull (values s) ∧
                (∀ v, count_of v (nonnull (values s)) ≤ count_of m (nonnull (values s))) ∧
                values s' = map (λ c, Some (default m c)) (values s)) ∧
        (dtype s ≠ object → s' = s).
Proof.
  intros Hparsed Hrows.
  assert (∀ s, s ∈ columns df → object_or_category (dtype s) = true →
            ∃ m, fill_with_mode s = Ok (Series_fillna m s) ∧ m ∈ nonnull (values s) ∧
                 ∀ v, count_of v (nonnull (values s)) ≤ count_of m (nonnull (values s)))
    as Hmode.
  { intros s Hs Hobj. assert (dtype s = object) as Hdtype by by destruct (dtype s).
    destruct (getitem0_mode (values s)) as (m & Hm & Hin & Hmax);
      [by eapply parsed_object_value|].
    exists m. unfold fill_with_mode. by rewrite Hm. }
  eexists. split.
  { unfold remediation. simpl. apply for_columns_column_wise; [apply Hparsed|].
    intros s Hs Hobj. destruct (Hmode s Hs Hobj) as (m & Hm & _).
    eexists. split; [exact Hm|apply name_Series_fillna]. }
  split; [done|]. split.
  { unfold labels. simpl. rewrite <- list_fmap_compose. apply list_fmap_ext.
    intros i s Hi. simpl. unfold column_wise.
    destruct (object_or_category (dtype s)) eqn:Hobj; [|done].
    destruct (Hmode s) as (m & -> & _); [by eapply list_elem_of_lookup_2|done|].
    apply name_Series_fillna. }
  intros j s Hj. simpl. rewrite list_lookup_fmap, Hj. simpl. eexists. split; [done|].
  unfold column_wise. split.
  - intros Hdtype. rewrite Hdtype. simpl.
    destruct (Hmode s) as (m & -> & Hin & Hmax);
      [by eapply list_elem_of_lookup_2|by rewrite Hdtype|].
    split; [apply missing_Series_fillna|]. exists m.
    split; [done|]. split; [done|]. apply values_Series_fillna.
  - intros Hdtype. by destruct (dtype s).
Qed.

End in_place.

(** C2, on the upload that holds a header and no row: the table is a parsed
    table, its column has no value and therefore no mode, and cleaning with
    "fill with mode/median" and "Mode" answers with the server error of the
    failed lookup [mode()[0]], leaving the shared file as it was. *)
Lemma clean_data_mode_header_only :
  parsed header_only ∧
  clean_data (image:=()) replace_table (Ok header_only) "fill with mode/median"
             None (Some "Mode") None
  = (Ok (json_error "0" 500), None).
Proof. split; [by apply (bool_decide_unpack (parsed header_only))|done]. Qed.

(** ** The chart of [visualize_data] *)

Section chart.
Context {num : Type} `{!Scalar num}.
Implicit Types (df : DataFrame num) (s cat numc : Series num)
  (cells : list (cell num)) (l : value num).

#[local] Instance count_desc_total : Total (count_desc (num:=num)).
Proof. intros a b. unfold count_desc. lia. Qed.

#[local] Instance count_desc_trans : Transitive (count_desc (num:=num)).
Proof. intros a b c. unfold count_desc. lia. Qed.

#[local] Instance sum_desc_total : Total (sum_desc (num:=num)).
Proof. intros a b. unfold sum_desc. destruct (total num_le a.2 b.2); auto. Qed.

#[local] Instance sum_desc_trans : Transitive (sum_desc (num:=num)).
Proof. intros a b c. unfold sum_desc. intros ??. by etransitivity. Qed.

Lemma getitem_mask_map {A} (f : A → bool) (k : list A) :
  getitem_mask (map f k) k = filter (λ x, f x = true) k.
Proof.
  induction k as [|x k IH]; [done|].
  simpl. rewrite filter_cons, IH. destruct (f x); by case_decide.
Qed.

Lemma getitem_mask_nested {A B} (p q : A → bool) (a : list A) (b : list B) :
  (∀ x, p x = true → q x = true) →
  getitem_mask (map p (getitem_mask (map q a) a)) (getitem_mask (map q a) b)
  = getitem_mask (map p a) b.
Proof.
  intros Hpq. revert b. induction a as [|x a IH]; intros [|y b]; simpl;
    rewrite ?getitem_mask_nil; try done.
  destruct (q x) eqn:Hq; simpl.
  - by destruct (p x); rewrite IH.
  - destruct (p x) eqn:Hp; [|by rewrite IH].
    apply Hpq in Hp. congruence.
Qed.

Lemma elem_of_nonnull cells l : l ∈ nonnull cells ↔ Some l ∈ cells.
Proof.
  unfold nonnull. rewrite list_elem_of_omap. split.
  - intros (c & Hc & Hid). simpl in Hid. by subst.
  - intros Hc. by exists (Some l).
Qed.

(** *** [value_counts] *)

Lemma value_counts_Permutation cells :
  value_counts cells
  ≡ₚ map (λ k, (k, count_of k (nonnull cells))) (unique (nonnull cells)).
Proof. apply merge_sort_Permutation. Qed.

Lemma value_counts_labels cells : (value_counts cells).*1 ≡ₚ unique (nonnull cells).
Proof.
  rewrite value_counts_Permutation. rewrite <- list_fmap_compose.
  by rewrite list_fmap_id.
Qed.

Lemma value_counts_count cells l n :
  (l, n) ∈ value_counts cells → n = count_of l (nonnull cells).
Proof.
  rewrite value_counts_Permutation. by intros (k & [= -> ->] & _)%list_elem_of_fmap.
Qed.

Lemma value_counts_sorted cells : StronglySorted count_desc (value_counts cells).
Proof. apply StronglySorted_merge_sort; apply _. Qed.

Lemma head_n_nat {A} (N : nat) (k : list A) : head_n (Z.of_nat N) k = take N k.
Proof.
  unfold head_n. rewrite bool_decide_eq_true_2 by lia. by rewrite Nat2Z.id.
Qed.

Lemma top_labels_sublist N cells :
  top_labels N cells `sublist_of` (value_counts cells).*1.
Proof.
  unfold top_labels. apply fmap_sublist.
  rewrite <- (take_drop N (value_counts cells)) at 2. by apply sublist_inserts_r.
Qed.

Lemma NoDup_top_labels N cells : NoDup (top_labels N cells).
Proof.
  eapply sublist_NoDup; [|apply top_labels_sublist].
  rewrite value_counts_labels. apply NoDup_unique.
Qed.

Lemma elem_of_top_labels N cells l :
  l ∈ top_labels N cells → l ∈ unique (nonnull cells).
Proof.
  intros Hl. rewrite <- value_counts_labels.
  eapply elem_of_sublist; [exact Hl|apply top_labels_sublist].
Qed.

Lemma length_top_labels N cells :
  length (top_labels N cells) = N `min` length (unique (nonnull cells)).
Proof.
  unfold top_labels. rewrite length_fmap, length_take.
  by rewrite <- (length_fmap fst (value_counts cells)), value_counts_labels.
Qed.

Lemma top_labels_most_frequent N cells l l' :
  l ∈ top_labels N cells → l' ∈ unique (nonnull cells) → l' ∉ top_labels N cells →
  count_of l' (nonnull cells) ≤ count_of l (nonnull cells).
Proof.
  unfold top_labels. intros (p & -> & Hp)%list_elem_of_fmap Hl' Hnot.
  pose proof (value_counts_sorted cells) as Hsorted.
  rewrite <- (take_drop N (value_counts cells)) in Hsorted.
  apply StronglySorted_app in Hsorted as (Hcross & _ & _).
  rewrite <- value_counts_labels in Hl'.
  apply list_elem_of_fmap in Hl' as (p' & -> & Hp').
  rewrite <- (take_drop N (value_counts cells)) in Hp'.
  apply elem_of_app in Hp' as [Hp'|Hp'].
  { exfalso. apply Hnot. apply list_elem_of_fmap. by exists p'. }
  specialize (Hcross p p' Hp Hp'). unfold count_desc in Hcross.
  assert (p ∈ value_counts cells) as Hpin.
  { rewrite <- (take_drop N (value_counts cells)). apply elem_of_app. by left. }
  assert (p' ∈ value_counts cells) as Hpin'.
  { rewrite <- (take_drop N (value_counts cells)). apply elem_of_app. by right. }
  destruct p as [k n], p' as [k' n']. simpl in *.
  by rewrite <- (value_counts_count cells k n), <- (value_counts_count cells k' n').
Qed.

(** *** The filtered table and the group sums *)

Lemma getitem_loc df mask label s :
  getitem df label = Ok s →
  getitem (loc df mask) label
  = Ok (mkSeries (name s) (dtype s) (getitem_mask mask (values s))).
Proof.
  unfold getitem, loc. simpl. rewrite list_find_fmap.
  change (list_find (_ ∘ _) (columns df))
    with (list_find (λ c, name c = label) (columns df)).
  destruct (list_find _ (columns df)) as [[i c]|]; [|done]. by intros [= ->].
Qed.

Lemma mapM_Ok {A B} (f : A → result B) (g : A → B) (k : list A) :
  (∀ x, f x = Ok (g x)) → mapM f k = Ok (map g k).
Proof.
  intros Hf. induction k as [|x k IH]; [done|].
  simpl. rewrite Hf. simpl. by rewrite IH.
Qed.

Lemma groupby_sum_number by_ s :
  number (dtype s) = true →
  groupby_sum by_ s
  = Ok (map (λ k, (k, num_sum (numbers
               (getitem_mask (map (λ c, bool_decide (c = Some k)) by_) (values s)))))
            (merge_sort value_le (unique (nonnull by_)))).
Proof.
  intros Hnum. unfold groupby_sum. apply mapM_Ok. intros k.
  unfold group_sum. by destruct (dtype s).
Qed.

Lemma nonnull_isin cells (T : list (value num)) l :
  l ∈ nonnull (getitem_mask (isin cells T) cells) ↔ l ∈ T ∧ l ∈ nonnull cells.
Proof.
  unfold isin. rewrite getitem_mask_map, !elem_of_nonnull, list_elem_of_filter.
  by rewrite bool_decide_eq_true.
Qed.

Lemma chart_sums df categorical_column numeric_column (N : nat) cat numc :
  getitem df categorical_column = Ok cat →
  getitem df numeric_column = Ok numc →
  number (dtype numc) = true →
  ∃ sums,
    chart df categorical_column numeric_column (Z.of_nat N) = Ok (sort_values_desc sums) ∧
    sums.*1 ≡ₚ top_labels N (values cat) ∧
    ∀ l x, (l, x) ∈ sums → x = label_sum cat numc l.
Proof.
  intros Hcat Hnumc Hnum. unfold chart. rewrite Hcat. simpl.
  rewrite head_n_nat. fold (top_labels N (values cat)).
  set (T := top_labels N (values cat)).
  unfold groupby_getitem.
  rewrite (getitem_loc _ _ _ _ Hcat), (getitem_loc _ _ _ _ Hnumc). simpl.
  rewrite groupby_sum_number by done. simpl.
  assert (∀ k, k ∈ unique (nonnull (getitem_mask (isin (values cat) T) (values cat)))
               ↔ k ∈ T) as Hkeys.
  { intros k. rewrite elem_of_unique, nonnull_isin. split; [tauto|].
    intros Hk. split; [done|]. by apply elem_of_unique, (elem_of_top_labels N). }
  eexists. split; [done|]. split.
  - rewrite <- list_fmap_compose. rewrite (list_fmap_ext _ id) by done.
    rewrite list_fmap_id, merge_sort_Permutation.
    apply NoDup_Permutation; [apply NoDup_unique|apply NoDup_top_labels|done].
  - intros l x (k & [= -> ->] & Hk)%list_elem_of_fmap.
    rewrite merge_sort_Permutation in Hk. apply Hkeys in Hk.
    unfold label_sum, isin. f_equal. f_equal.
    apply (getitem_mask_nested (λ c, bool_decide (c = Some k))).
    intros c Hc. apply bool_decide_eq_true in Hc as ->. by apply bool_decide_eq_true.
Qed.

Section visualize.
Context {image : Type}.
Variable plot_bar : list (value num * num) → result image.

(** C8. For every table, every column [cat] named as the categorical
    column, every column [numc] of numeric dtype named as the numeric column
    and every number [N] of categories, the handler plots a series of bars
    (and answers with its image when the plot succeeds) such that: the labels
    of the bars are distinct labels of [cat]; there are [N] of them, or as
    many as [cat] has distinct labels when these are fewer; no label left out
    occurs in more rows than a label that is plotted; each bar carries the sum
    of [numc] over the rows with its label; the bars are in descending order
    of that sum.  With [N = 5] and 8 distinct labels there are 5 bars. *)
Theorem visualize_data_top_n df categorical_column numeric_column (N : nat) cat numc :
  getitem df categorical_column = Ok cat →
  getitem df numeric_column = Ok numc →
  number (dtype numc) = true →
  ∃ bars,
    visualize_data plot_bar (Ok df) categorical_column numeric_column (Z.of_nat N)
    = (buffer ← plot_bar bars; mret (StreamingResponse buffer "image/png")) ∧
    NoDup bars.*1 ∧
    (∀ l, l ∈ bars.*1 → l ∈ distinct_labels cat) ∧
    length bars = N `min` length (distinct_labels cat) ∧
    (∀ l l', l ∈ bars.*1 → l' ∈ distinct_labels cat → l' ∉ bars.*1 →
             label_count cat l' ≤ label_count cat l) ∧
    (∀ l x, (l, x) ∈ bars → x = label_sum cat numc l) ∧
    StronglySorted sum_desc bars ∧
    (N = 5 → length (distinct_labels cat) = 8 → length bars = 5).
Proof.
  intros Hcat Hnumc Hnum.
  destruct (chart_sums df _ _ N cat numc Hcat Hnumc Hnum) as (sums & Hchart & Hlabels & Hsum).
  exists (sort_values_desc sums).
  assert (sort_values_desc sums ≡ₚ sums) as Hperm by apply merge_sort_Permutation.
  assert ((sort_values_desc sums).*1 ≡ₚ top_labels N (values cat)) as Htop
    by by rewrite Hperm.
  assert (length (sort_values_desc sums) = N `min` length (distinct_labels cat)) as Hlen.
  { rewrite <- (length_fmap fst), Htop. apply length_top_labels. }
  split; [|split; [|split; [|split; [|split; [|split; [|split]]]]]].
  - unfold visualize_data. simpl. by rewrite Hchart.
  - rewrite Htop. apply NoDup_top_labels.
  - intros l. rewrite Htop. apply elem_of_top_labels.
  - done.
  - intros l l'. rewrite !Htop. apply top_labels_most_frequent.
  - intros l x. rewrite Hperm. apply Hsum.
  - unfold sort_values_desc. apply StronglySorted_merge_sort; apply _.
  - intros -> H8. rewrite Hlen, H8. done.
Qed.

End visualize.

End chart.

(** ** The handlers on concrete uploads *)

Lemma parsed_cars : parsed cars.
Proof. by apply (bool_decide_unpack (parsed cars)). Defined.

Lemma clean_data_fill_cars :
  replace_table cars_filled None = (Ok (), Some cars_filled) ∧
  clean_data (image:=()) replace_table (Ok cars) "fill" (Some "unknown") None None
  = (Ok success, Some cars_filled) ∧
  Forall (λ s, missing s = 0) (columns cars_filled).
Proof.
  assert (replace_table cars_filled None = (Ok (), Some cars_filled)) as Hsql
    by reflexivity.
  split; [exact Hsql|].
  destruct (clean_data_fill (image:=()) replace_table cars "unknown" None None
              (Some cars_filled) Hsql) as (Hresponse & _ & _ & Hmissing & _).
  split; [exact Hresponse|exact Hmissing].
Defined.

Lemma clean_data_drop_cars :
  parsed cars ∧
  replace_table (dropna cars) None = (Ok (), Some (dropna cars)) ∧
  clean_data (image:=()) replace_table (Ok cars) "drop" None None None
  = (Ok success, Some (dropna cars)) ∧
  rows (dropna cars) = filter complete (rows cars) ∧
  index (dropna cars) ≤ index cars.
Proof.
  assert (replace_table (dropna cars) None = (Ok (), Some (dropna cars))) as Hsql
    by reflexivity.
  split; [exact parsed_cars|]. split; [exact Hsql|].
  destruct (clean_data_drop (image:=()) replace_table cars None None None
              (Some (dropna cars)) parsed_cars Hsql) as (Hresponse & Hrows & _ & _ & Hle & _).
  split; [exact Hresponse|]. split; [exact Hrows|exact Hle].
Defined.

Lemma median_not_a_strategy : "median" ∉ ["drop"; "fill"; "fill with mode/median"].
Proof. by apply (bool_decide_unpack (_ ∉ _)). Defined.

Lemma clean_data_invalid_strategy_cars :
  ("median" ∉ ["drop"; "fill"; "fill with mode/median"]) ∧
  (clean_data (image:=()) replace_table (Ok cars) "median" None None (Some header_only)).2
  = Some header_only.
Proof.
  split; [exact median_not_a_strategy|].
  exact (proj2 (proj2 (clean_data_invalid_strategy (image:=()) replace_table (Ok cars)
                         "median" None None (Some header_only) median_not_a_strategy))).
Defined.

(** C4, as stated, on an empty upload with the unknown strategy median: the
    response is the server error of the parser, not a client-input error. *)
Lemma clean_data_invalid_strategy_empty_upload :
  ("median" ∉ ["drop"; "fill"; "fill with mode/median"]) ∧
  clean_data (image:=()) replace_table empty_upload "median" None None None
  = (Ok (json_error "No columns to parse from file" 500), None) ∧
  ¬ ∃ message d,
      clean_data (image:=()) replace_table empty_upload "median" None None None
      = (Ok (json_error message 400), d).
Proof.
  split; [exact median_not_a_strategy|]. split; [reflexivity|].
  intros (message & d & Heq). discriminate Heq.
Qed.

(** C5, as stated, on an empty upload with strategy "fill" and no fill value:
    the request has a client-input error, and the response is the server
    error of the parser, not a client-input error. *)
Lemma clean_data_fill_no_value_empty_upload :
  client_error "fill" None None ∧
  clean_data (image:=()) replace_table empty_upload "fill" None None None
  = (Ok (json_error "No columns to parse from file" 500), None) ∧
  ¬ ∃ message d,
      clean_data (image:=()) replace_table empty_upload "fill" None None None
      = (Ok (json_error message 400), d).
Proof.
  split; [by left|]. split; [reflexivity|].
  intros (message & d & Heq). discriminate Heq.
Qed.

Lemma missing_values_exact_cars :
  parsed cars ∧
  ∃ counts distribution,
    missing_values (image:=()) (Ok cars)
    = Ok (JSONResponse (missing_content counts distribution) 200) ∧
    (∀ c n, counts !! c = Some n
            ↔ 0 < n ∧ ∃ s, s ∈ columns cars ∧ name s = c ∧ missing s = n) ∧
    ((∀ s, s ∈ columns cars → missing s = 0) → counts = ∅).
Proof. split; [exact parsed_cars|]. exact (missing_values_exact cars parsed_cars). Defined.

Lemma missing_values_cars :
  missing_values (image:=()) (Ok cars)
  = Ok (JSONResponse (missing_content cars_missing cars_missing) 200).
Proof. vm_compute. reflexivity. Defined.

Lemma missing_values_distribution_cars :
  missing_values (image:=()) (Ok cars)
  = Ok (JSONResponse (missing_content cars_missing cars_missing) 200) ∧
  cars_missing = cars_missing.
Proof.
  split; [exact missing_values_cars|].
  exact (missing_values_distribution (Ok cars) cars_missing cars_missing 200
           missing_values_cars).
Defined.

Lemma visualize_data_top_n_cars :
  ∃ cat numc,
    getitem cars "Manufacturer" = Ok cat ∧
    getitem cars "Sales_in_thousands" = Ok numc ∧
    number (dtype numc) = true ∧
    ∃ bars,
      visualize_data bars_image (Ok cars) "Manufacturer" "Sales_in_thousands" 2
      = Ok (StreamingResponse bars "image/png") ∧
      length bars = 2 ∧
      StronglySorted sum_desc bars.
Proof.
  eexists _, _. split; [reflexivity|]. split; [reflexivity|]. split; [reflexivity|].
  destruct (visualize_data_top_n bars_image cars "Manufacturer" "Sales_in_thousands" 2
              _ _ eq_refl eq_refl eq_refl)
    as (bars & Hresponse & _ & _ & Hlen & _ & _ & Hsorted & _).
  exists bars. split; [exact Hresponse|]. split; [exact Hlen|exact Hsorted].
Defined.

(* ===================================================================== *)
(** * Part III: further properties of the handlers, the script and the
      client pages                                                        *)
(* ===================================================================== *)

(** ** The remediations of "fill with mode/median" *)

Section mode_median.
Context {num : Type} `{!Scalar num} {image db : Type}.
Variable to_sql : DataFrame num → io db ().
Implicit Types (df : DataFrame num) (s : Series num) (d : db).

Lemma clean_data_remediated df strategy fill_value sub_strategy df' d d' :
  ¬ client_error strategy fill_value sub_strategy →
  remediation strategy fill_value sub_strategy df = Ok df' →
  to_sql df' d = (Ok (), d') →
  clean_data (image:=image) to_sql (Ok df) strategy fill_value sub_strategy d
  = (Ok success, d').
Proof.
  intros Hce Hrem Hsql. rewrite clean_data_table.
  destruct (decide _); [done|]. rewrite Hrem. by apply stored_ok.
Qed.

Lemma not_client_error_mode fill_value :
  ¬ client_error "fill with mode/median" fill_value (Some "Mode").
Proof. unfold client_error. intros [[? _]|[(_ & ? & _)|(_ & _ & ?)]]; done. Qed.

Lemma not_client_error_median fill_value :
  ¬ client_error "fill with mode/median" fill_value (Some "Median").
Proof. unfold client_error. intros [[? _]|[(_ & _ & ?)|(_ & _ & ?)]]; done. Qed.

Lemma fill_with_median_Ok s :
  ∃ s', fill_with_median s = Ok s' ∧ name s' = name s.
Proof.
  unfold fill_with_median. destruct (num_median _) as [m|]; simpl.
  - eexists. split; [done|]. apply name_Series_fillna.
  - by exists s.
Qed.

(** X1. "Median" never fails: on every table with distinct labels the handler
    hands a table to the store.  In that table every column of numeric dtype
    whose values have a median has its gaps filled with this median; a numeric
    column without any value (its median is NaN) and every column of another
    dtype are as they were. *)
Theorem clean_data_median df fill_value :
  NoDup (labels df) →
  ∃ df',
    (∀ d d', to_sql df' d = (Ok (), d') →
       clean_data (image:=image) to_sql (Ok df) "fill with mode/median" fill_value
                  (Some "Median") d = (Ok success, d')) ∧
    index df' = index df ∧ labels df' = labels df ∧
    ∀ j s, columns df !! j = Some s →
      ∃ s', columns df' !! j = Some s' ∧
        (∀ m, number (dtype s) = true → num_median (numbers (values s)) = Some m →
              missing s' = 0 ∧ dtype s' = dtype s ∧
              values s' = map (λ c, Some (default (VNum m) c)) (values s)) ∧
        (number (dtype s) = true → num_median (numbers (values s)) = None → s' = s) ∧
        (number (dtype s) = false → s' = s).
Proof.
  intros Hnd.
  set (df' := mkDataFrame (index df) (map (column_wise number fill_with_median) (columns df))).
  assert (remediation "fill with mode/median" fill_value (Some "Median") df = Ok df')
    as Hrem.
  { unfold remediation. simpl. apply for_columns_column_wise; [done|].
    intros s _ _. apply fill_with_median_Ok. }
  exists df'. split; [|split; [done|split]].
  - intros d d' Hsql.
    exact (clean_data_remediated df _ _ _ df' d d'
             (not_client_error_median fill_value) Hrem Hsql).
  - unfold labels. simpl. rewrite <- list_fmap_compose. apply list_fmap_ext.
    intros i s _. simpl. unfold column_wise.
    destruct (number (dtype s)); [|done].
    by destruct (fill_with_median_Ok s) as (s' & -> & ->).
  - intros j s Hj. simpl. rewrite list_lookup_fmap, Hj. simpl.
    eexists. split; [done|]. unfold column_wise, fill_with_median.
    split; [|split].
    + intros m Hnum Hm. rewrite Hnum, Hm. simpl.
      split; [apply missing_Series_fillna|]. split; [|apply values_Series_fillna].
      unfold Series_fillna. case_bool_decide; [|done]. simpl.
      by destruct (dtype s).
    + intros Hnum Hm. by rewrite Hnum, Hm.
    + intros Hnum. by rewrite Hnum.
Qed.

(** X2. "Mode" on a parsed table with at least one row: the handler hands a table
    to the store in which every [object] column has its gaps filled with a
    most frequent value of that column and no missing cell, and every other
    column is as it was. *)
Theorem clean_data_mode df fill_value :
  parsed df → 0 < index df →
  ∃ df',
    (∀ d d', to_sql df' d = (Ok (), d') →
       clean_data (image:=image) to_sql (Ok df) "fill with mode/median" fill_value
                  (Some "Mode") d = (Ok success, d')) ∧
    index df' = index df ∧ labels df' = labels df ∧
    ∀ j s, columns df !! j = Some s →
      ∃ s', columns df' !! j = Some s' ∧
        (dtype s = object →
           missing s' = 0 ∧
           ∃ m, m ∈ nonnull (values s) ∧
                (∀ v, count_of v (nonnull (values s)) ≤ count_of m (nonnull (values s))) ∧
                values s' = map (λ c, Some (default m c)) (values s)) ∧
        (dtype s ≠ object → s' = s).
Proof.
  intros Hparsed Hrows.
  destruct (remediation_mode df fill_value Hparsed Hrows) as (df' & Hrem & Hindex & Hlabels & Hcols).
  exists df'. split; [|done].
  intros d d' Hsql.
  exact (clean_data_remediated df _ _ _ df' d d'
           (not_client_error_mode fill_value) Hrem Hsql).
Qed.

End mode_median.

(** ** Edge cases of the remediations *)

Section remediation_edges.
Context {num : Type} `{!Scalar num} {image db : Type}.
Variable to_sql : DataFrame num → io db ().
Implicit Types (df : DataFrame num) (s : Series num) (d : db).

(** X3. "Mode" on a parsed table without rows that has an [object] column: the
    first such column has no mode, the lookup [mode()[0]] raises, and the
    handler answers with the server error 0 and leaves the file as it was. *)
Theorem clean_data_mode_no_rows df fill_value d :
  parsed df → index df = 0 →
  Exists (λ s, dtype s = object) (columns df) →
  clean_data (image:=image) to_sql (Ok df) "fill with mode/median" fill_value
             (Some "Mode") d
  = (Ok (json_error "0" 500), d).
Proof.
  intros Hparsed Hrows Hex. pose proof (parsed_aligned df Hparsed) as Hal.
  rewrite clean_data_table.
  destruct (decide _) as [Hce|_]; [by apply not_client_error_mode in Hce|].
  assert (remediation "fill with mode/median" fill_value (Some "Mode") df = Raise "0")
    as ->; [|done].
  unfold remediation. simpl. unfold select_dtypes, labels. simpl.
  destruct (filter _ (columns df)) as [|s0 sel] eqn:Hsel.
  { apply Exists_exists in Hex as (s & Hs & Hobj).
    assert (s ∈ filter (λ s, object_or_category (dtype s) = true) (columns df)) as Hin.
    { apply list_elem_of_filter. by rewrite Hobj. }
    rewrite Hsel in Hin. by apply elem_of_nil in Hin. }
  assert (s0 ∈ columns df) as Hs0.
  { assert (s0 ∈ filter (λ s, object_or_category (dtype s) = true) (columns df)) as Hin
      by (rewrite Hsel; left).
    by apply list_elem_of_filter in Hin as [_ ?]. }
  simpl. destruct (getitem_known df (name s0)) as (s1 & -> & Hs1 & _).
  { apply list_elem_of_fmap. by exists s0. }
  simpl. unfold fill_with_mode.
  unfold aligned in Hal. rewrite Forall_forall in Hal.
  specialize (Hal s1 Hs1). rewrite Hrows in Hal.
  apply nil_length_inv in Hal. by rewrite Hal.
Qed.

(** *** The value "Mode" fills with, when several are most frequent *)

#[local] Instance value_le_trans : Transitive (value_le (num:=num)).
Proof.
  intros [x|s|b] [y|t|c] [z|u|e]; simpl; try done; try (by etransitivity).
Qed.

Lemma mode_least (cells : list (cell num)) m :
  Forall (λ c, text_cell c = true) cells →
  getitem0 (mode cells) = Ok m →
  ∀ v, v ∈ nonnull cells →
       (∀ w, count_of w (nonnull cells) ≤ count_of v (nonnull cells)) →
       value_le m v.
Proof.
  intros Htext Hm v Hv Hmax. unfold mode in Hm.
  set (vals := nonnull cells) in *. set (keys := unique vals) in *.
  set (top := foldr max 0 (map (λ k, count_of k vals) keys)) in *.
  set (modes := filter (λ k, count_of k vals = top) keys) in *.
  assert (v ∈ keys) as Hkey by by apply elem_of_unique.
  assert (v ∈ modes) as Hmode.
  { apply list_elem_of_filter. split; [|done].
    apply Nat.le_antisymm; [by apply (foldr_max_bound (λ k, count_of k vals))|].
    destruct (foldr_max_attained (λ k, count_of k vals) keys) as (a & _ & Ha).
    { intros Hnil. rewrite Hnil in Hkey. by apply elem_of_nil in Hkey. }
    unfold top. rewrite <- Ha. apply Hmax. }
  assert (sortable modes = true) as Hsortable.
  { unfold sortable. apply orb_true_iff. left. apply forallb_forall.
    intros k [_ Hk]%list_elem_of_In%list_elem_of_filter.
    unfold keys in Hk. rewrite elem_of_unique in Hk. apply elem_of_nonnull in Hk.
    rewrite Forall_forall in Htext. specialize (Htext _ Hk). by destruct k. }
  rewrite Hsortable in Hm.
  pose proof (StronglySorted_merge_sort value_le modes) as Hsorted.
  assert (v ∈ merge_sort value_le modes) as Hin by by rewrite merge_sort_Permutation.
  destruct (merge_sort value_le modes) as [|m' rest]; [done|].
  simpl in Hm. injection Hm as ->.
  apply StronglySorted_cons in Hsorted as [Hall _].
  apply elem_of_cons in Hin as [->|Hin].
  - by destruct (total value_le m m).
  - rewrite Forall_forall in Hall. by apply Hall.
Qed.

(** X4. "Mode" fills the gaps of a text column with a text that is most
    frequent in the column and that is, among the most frequent texts, the
    least one in lexicographic order. *)
Theorem fill_with_mode_least s s' :
  Forall (λ c, text_cell c = true) (values s) →
  fill_with_mode s = Ok s' →
  ∃ t, values s' = map (λ c, Some (default (VStr t) c)) (values s) ∧
       Some (VStr t) ∈ values s ∧
       (∀ w, count_of w (nonnull (values s)) ≤ count_of (VStr t) (nonnull (values s))) ∧
       ∀ u, Some (VStr u) ∈ values s →
            (∀ w, count_of w (nonnull (values s)) ≤ count_of (VStr u) (nonnull (values s))) →
            String.le t u.
Proof.
  intros Htext. unfold fill_with_mode.
  destruct (getitem0 (mode (values s))) as [m|e] eqn:Hm; [|done].
  simpl. intros [= <-].
  assert (m ∈ nonnull (values s) ∧
          ∀ w, count_of w (nonnull (values s)) ≤ count_of m (nonnull (values s)))
    as [Hin Hmost].
  { destruct (nonnull (values s)) as [|v0 vals] eqn:Hvals.
    - unfold mode in Hm. by rewrite Hvals in Hm.
    - destruct (getitem0_mode (values s)) as (m' & Hm' & Hin' & Hmost');
        [by rewrite Hvals|].
      rewrite Hm in Hm'. injection Hm' as <-. by rewrite <- Hvals. }
  assert (∃ t, m = VStr t) as [t ->].
  { apply elem_of_nonnull in Hin. rewrite Forall_forall in Htext.
    specialize (Htext _ Hin). destruct m; try done. by eexists. }
  exists t. split; [apply values_Series_fillna|].
  split; [by apply elem_of_nonnull|]. split; [done|].
  intros u Hu Hmax.
  apply (mode_least (values s) (VStr t) Htext Hm (VStr u)); [by apply elem_of_nonnull|done].
Qed.

End remediation_edges.

(** ** A table without missing cells *)

Section complete_table.
Context {num : Type} `{!Scalar num} {image db : Type}.
Variable to_sql : DataFrame num → io db ().
Implicit Types (df : DataFrame num) (s : Series num) (d : db).

Lemma missing_0 s : missing s = 0 ↔ None ∉ values s.
Proof.
  unfold missing. induction (values s) as [|c l IH].
  - split; [by intros _ ?%elem_of_nil|done].
  - rewrite filter_cons, not_elem_of_cons. case_decide as Hc; simpl.
    + subst c. split; [lia|]. by intros [? _].
    + rewrite IH. split; [by intros ?; split|by intros [_ ?]].
Qed.

Lemma Series_fillna_complete v s : missing s = 0 → Series_fillna v s = s.
Proof.
  intros Hs%missing_0. unfold Series_fillna. by rewrite bool_decide_eq_false_2.
Qed.

Lemma notna_complete s :
  missing s = 0 → notna (values s) = replicate (length (values s)) true.
Proof.
  intros Hs%missing_0. unfold notna. induction (values s) as [|c l IH]; [done|].
  apply not_elem_of_cons in Hs as [Hc Hl]. simpl. rewrite IH by done.
  by rewrite bool_decide_eq_true_2.
Qed.

Lemma getitem_mask_true {A} (l : list A) :
  getitem_mask (replicate (length l) true) l = l.
Proof. induction l as [|x l IH]; [done|]. simpl. by rewrite IH. Qed.

Lemma sum_bool_true n : sum_bool (replicate n true) = n.
Proof.
  induction n as [|n IH]; [done|]. simpl. rewrite sum_bool_cons, IH. done.
Qed.

Lemma notna_all_complete df :
  aligned df → (∀ s, s ∈ columns df → missing s = 0) →
  notna_all df = replicate (index df) true.
Proof.
  unfold aligned, notna_all. intros Hal Hcomplete.
  induction (columns df) as [|s cols IH]; [done|].
  apply Forall_cons in Hal as [Hlen Hal]. simpl.
  rewrite IH; [|done|intros s' Hs'; apply Hcomplete; by right].
  rewrite notna_complete by (apply Hcomplete; left). rewrite Hlen.
  rewrite zip_with_replicate. done.
Qed.

Lemma dropna_complete df :
  aligned df → (∀ s, s ∈ columns df → missing s = 0) → dropna df = df.
Proof.
  intros Hal Hcomplete. unfold dropna, loc.
  rewrite notna_all_complete by done. rewrite sum_bool_true.
  destruct df as [n cols]. simpl in *. f_equal.
  rewrite <- (list_fmap_id cols) at 2. apply list_fmap_ext.
  intros i s Hi. simpl. unfold aligned in Hal. simpl in Hal.
  rewrite Forall_forall in Hal.
  rewrite <- (Hal s) by by eapply list_elem_of_lookup_2.
  rewrite getitem_mask_true. by destruct s.
Qed.

Lemma fillna_complete v df :
  (∀ s, s ∈ columns df → missing s = 0) → fillna v df = df.
Proof.
  intros Hcomplete. unfold fillna. destruct df as [n cols]. simpl in *. f_equal.
  rewrite <- (list_fmap_id cols) at 2. apply list_fmap_ext.
  intros i s Hi. simpl. apply Series_fillna_complete, Hcomplete.
  by eapply list_elem_of_lookup_2.
Qed.

Lemma column_wise_complete include body df :
  (∀ s, s ∈ columns df → include (dtype s) = true → body s = Ok s) →
  mkDataFrame (index df) (map (column_wise include body) (columns df)) = df.
Proof.
  intros Hbody. destruct df as [n cols]. simpl in *. f_equal.
  rewrite <- (list_fmap_id cols) at 2. apply list_fmap_ext.
  intros i s Hi. simpl. unfold column_wise.
  destruct (include (dtype s)) eqn:Hsel; [|done].
  rewrite Hbody; [done| |done]. by eapply list_elem_of_lookup_2.
Qed.

(** X5. Every request that passes validation leaves a parsed table with rows and
    without missing cells as it is: the table handed to the store is the
    uploaded table, whatever the strategy. *)
Theorem clean_data_complete df strategy fill_value sub_strategy :
  parsed df → 0 < index df →
  (∀ s, s ∈ columns df → missing s = 0) →
  ¬ client_error strategy fill_value sub_strategy →
  remediation strategy fill_value sub_strategy df = Ok df ∧
  ∀ d d', to_sql df d = (Ok (), d') →
    clean_data (image:=image) to_sql (Ok df) strategy fill_value sub_strategy d
    = (Ok success, d').
Proof.
  intros Hparsed Hrows Hcomplete Hce.
  assert (remediation strategy fill_value sub_strategy df = Ok df) as Hrem.
  { unfold remediation. case_bool_decide as Hdrop.
    { f_equal. apply dropna_complete; [by apply parsed_aligned|done]. }
    case_bool_decide as Hfill.
    { f_equal. by apply fillna_complete. }
    case_bool_decide as Hmode.
    - rewrite for_columns_column_wise.
      + f_equal. apply column_wise_complete. intros s Hs Hobj.
        destruct (getitem0_mode (values s)) as (m & Hm & _).
        { eapply parsed_object_value; [done..|]. by destruct (dtype s). }
        unfold fill_with_mode. rewrite Hm. simpl. f_equal.
        by apply Series_fillna_complete, Hcomplete.
      + apply Hparsed.
      + intros s Hs Hobj.
        destruct (getitem0_mode (values s)) as (m & Hm & _).
        { eapply parsed_object_value; [done..|]. by destruct (dtype s). }
        exists (Series_fillna m s). unfold fill_with_mode. rewrite Hm.
        split; [done|apply name_Series_fillna].
    - rewrite for_columns_column_wise.
      + f_equal. apply column_wise_complete. intros s Hs Hnum.
        unfold fill_with_median. destruct (num_median _); [|done].
        simpl. f_equal. by apply Series_fillna_complete, Hcomplete.
      + apply Hparsed.
      + intros s _ _. apply fill_with_median_Ok. }
  split; [done|]. intros d d' Hsql.
  exact (clean_data_remediated to_sql df _ _ _ df d d' Hce Hrem Hsql).
Qed.

End complete_table.

(** ** The overview *)

Section overview_success.
Context {num : Type} `{!Scalar num} {image : Type}.
Implicit Types (df : DataFrame num) (s : Series num).

(** X6. A successful overview of a parsed table has status 200 and reports the
    number of rows, the number of columns and the labels of the table, and its
    section [column_types] maps every label to the name of the dtype of its
    column and holds nothing else. *)
Theorem csv_overview_success df num_rows num_columns summary types names status :
  parsed df →
  csv_overview (image:=image) (Ok df)
  = Ok (JSONResponse (overview_content num_rows num_columns summary types names) status) →
  status = 200 ∧ num_rows = index df ∧ num_columns = length (columns df) ∧
  names = labels df ∧
  (∀ s, s ∈ columns df → types !! name s = Some (dtype_name (dtype s))) ∧
  (∀ label, is_Some (types !! label) → label ∈ labels df).
Proof.
  intros (_ & Hnd & _). unfold csv_overview, try_except, shape, render. simpl.
  destruct (describe df) as [described|e]; simpl; [|done].
  case_bool_decide; [|done]. intros Heq. simplify_eq.
  set (entries := map (λ s, (name s, dtype_name (dtype s))) (columns df)).
  assert (entries.*1 = labels df) as Hkeys.
  { unfold entries, labels. rewrite <- list_fmap_compose. by apply list_fmap_ext. }
  assert (NoDup entries.*1) as Hnd' by by rewrite Hkeys.
  split; [done|]. split; [done|]. split; [done|]. split; [done|]. split.
  - intros s Hs. apply lookup_to_dict; [done|].
    apply list_elem_of_fmap. by exists s.
  - intros label [ty Hty]. apply lookup_to_dict in Hty; [|done].
    rewrite <- Hkeys. apply list_elem_of_fmap. by exists (label, ty).
Qed.

End overview_success.

(** ** A negative number of categories *)

Section negative_top_n.
Context {num : Type} `{!Scalar num} {image : Type}.
Variable plot_bar : list (value num * num) → result image.
Implicit Types (df : DataFrame num) (cat numc : Series num).

Lemma head_n_negative {A} (top_n : Z) (k : list A) :
  (top_n < 0)%Z →
  head_n top_n k = head_n (Z.of_nat (length k - Z.to_nat (- top_n))) k.
Proof.
  intros Hneg. rewrite head_n_nat. unfold head_n.
  by rewrite bool_decide_eq_false_2 by lia.
Qed.

Lemma length_value_counts (cells : list (cell num)) :
  length (value_counts cells) = length (unique (nonnull cells)).
Proof. by rewrite <- (length_fmap fst), value_counts_labels. Qed.

(** X9. [top_n] is not validated.  For a negative [top_n] the handler plots all
    distinct labels of the categorical column but the [-top_n] last of the
    frequency ranking (none, when there are not more than [-top_n]): the
    labels plotted are distinct, and no label left out occurs in more rows
    than a label that is plotted. *)
Theorem visualize_data_negative_top_n df categorical_column numeric_column
    (top_n : Z) cat numc :
  getitem df categorical_column = Ok cat →
  getitem df numeric_column = Ok numc →
  number (dtype numc) = true →
  (top_n < 0)%Z →
  ∃ bars,
    visualize_data plot_bar (Ok df) categorical_column numeric_column top_n
    = (buffer ← plot_bar bars; mret (StreamingResponse buffer "image/png")) ∧
    length bars = length (distinct_labels cat) - Z.to_nat (- top_n) ∧
    NoDup bars.*1 ∧
    (∀ l l', l ∈ bars.*1 → l' ∈ distinct_labels cat → l' ∉ bars.*1 →
             label_count cat l' ≤ label_count cat l) ∧
    (∀ l x, (l, x) ∈ bars → x = label_sum cat numc l).
Proof.
  intros Hcat Hnumc Hnum Hneg.
  set (N := length (distinct_labels cat) - Z.to_nat (- top_n)).
  assert (chart df categorical_column numeric_column top_n
          = chart df categorical_column numeric_column (Z.of_nat N)) as Hchart.
  { unfold chart. rewrite Hcat. simpl.
    rewrite (head_n_negative top_n) by done.
    by rewrite length_value_counts. }
  destruct (chart_sums df _ _ N cat numc Hcat Hnumc Hnum) as (sums & HchartN & Hlabels & Hsum).
  exists (sort_values_desc sums).
  assert (sort_values_desc sums ≡ₚ sums) as Hperm by apply merge_sort_Permutation.
  assert ((sort_values_desc sums).*1 ≡ₚ top_labels N (values cat)) as Htop
    by by rewrite Hperm.
  split; [|split; [|split; [|split]]].
  - unfold visualize_data. simpl. by rewrite Hchart, HchartN.
  - rewrite <- (length_fmap fst), Htop, length_top_labels.
    unfold N, distinct_labels. lia.
  - rewrite Htop. apply NoDup_top_labels.
  - intros l l'. rewrite !Htop. apply top_labels_most_frequent.
  - intros l x. rewrite Hperm. apply Hsum.
Qed.

End negative_top_n.

(** ** The diagnostic script *)

Section check_database_lemmas.
Context {num : Type} `{!Scalar num}.
Variable execute_select : option (DataFrame num) → string → result (list (nat * cell num)).
Implicit Types (df : DataFrame num) (s : Series num) (cells : list (cell num)).

Lemma elem_of_select_null_from rowid cells r c :
  (r, c) ∈ select_null_from rowid cells
  ↔ c = None ∧ rowid ≤ r ∧ cells !! (r - rowid) = Some None.
Proof.
  revert rowid. induction cells as [|[v|] cells IH]; intros rowid; simpl.
  - rewrite elem_of_nil. intuition discriminate.
  - rewrite IH. split.
    + intros (-> & Hle & Hr). split; [done|]. split; [lia|].
      by replace (r - rowid) with (S (r - S rowid)) by lia.
    + intros (-> & Hle & Hr). split; [done|].
      destruct (decide (r = rowid)) as [->|Hne].
      { by rewrite Nat.sub_diag in Hr. }
      split; [lia|]. by replace (r - rowid) with (S (r - S rowid)) in Hr by lia.
  - rewrite elem_of_cons, IH. split.
    + intros [[= -> ->]|(-> & Hle & Hr)].
      * split; [done|]. split; [done|]. by rewrite Nat.sub_diag.
      * split; [done|]. split; [lia|].
        by replace (r - rowid) with (S (r - S rowid)) by lia.
    + intros (-> & Hle & Hr). destruct (decide (r = rowid)) as [->|Hne]; [by left|].
      right. split; [done|]. split; [lia|].
      by replace (r - rowid) with (S (r - S rowid)) in Hr by lia.
Qed.

Lemma length_select_null_from rowid cells :
  length (select_null_from rowid cells) = length (filter (λ c, c = None) cells).
Proof.
  revert rowid. induction cells as [|[v|] cells IH]; intros rowid; [done|..].
  - rewrite filter_cons, decide_False by done. simpl. apply IH.
  - rewrite filter_cons, decide_True by done. simpl. by rewrite IH.
Qed.

Lemma length_select_null s : length (select_null s) = missing s.
Proof. apply length_select_null_from. Qed.

Lemma select_null_nil s : select_null s = [] ↔ missing s = 0.
Proof.
  rewrite <- length_select_null. split; [by intros ->|apply nil_length_inv].
Qed.

Lemma check_columns_resolved t cols out null_rows :
  (∀ s, s ∈ cols → execute_select t (name s) = Ok (select_null s)) →
  check_columns execute_select t (map name cols) out null_rows
  = (out ++ map null_values_found (map name (with_null cols)),
     Ok (null_rows ++ concat (map select_null cols))).
Proof.
  revert out null_rows. induction cols as [|s cols IH]; intros out null_rows Hres.
  - simpl. by rewrite !app_nil_r.
  - simpl. rewrite (Hres s) by left. unfold with_null. rewrite filter_cons.
    destruct (select_null s) as [|row rest] eqn:Hs.
    + rewrite decide_False.
      2:{ apply select_null_nil in Hs. lia. }
      rewrite IH by (intros s' Hs'; apply Hres; by right). done.
    + rewrite decide_True.
      2:{ rewrite <- length_select_null, Hs. simpl. lia. }
      rewrite IH by (intros s' Hs'; apply Hres; by right).
      simpl. by rewrite <- !(assoc_L (++)).
Qed.

End check_database_lemmas.

Section check_database_theorems.
Context {num : Type} `{!Scalar num}.
Variable execute_select : option (DataFrame num) → string → result (list (nat * cell num)).
Implicit Types (df : DataFrame num) (s : Series num).

Lemma with_null_nil (cols : list (Series num)) :
  with_null cols = [] ↔ ∀ s, s ∈ cols → missing s = 0.
Proof.
  unfold with_null. split.
  - intros Hnil s Hs. destruct (decide (0 < missing s)) as [Hpos|?]; [|lia].
    assert (s ∈ filter (λ s, 0 < missing s) cols) as Hin by by apply list_elem_of_filter.
    rewrite Hnil in Hin. by apply elem_of_nil in Hin.
  - intros Hall. induction cols as [|s cols IH]; [done|].
    rewrite filter_cons, decide_False.
    + apply IH. intros s' Hs'. apply Hall. by right.
    + rewrite (Hall s) by left. lia.
Qed.

Lemma select_null_concat_nil (cols : list (Series num)) :
  concat (map select_null cols) = [] ↔ with_null cols = [].
Proof.
  rewrite with_null_nil. induction cols as [|s cols IH]; simpl.
  - split; [by intros _ s ?%elem_of_nil|done].
  - rewrite app_nil, IH, select_null_nil. split.
    + intros [Hs Hcols] s' [->|Hs']%elem_of_cons; auto.
    + intros Hall. split; [apply Hall; left|]. intros s' Hs'. apply Hall. by right.
Qed.

Lemma length_select_null_concat (cols : list (Series num)) :
  length (concat (map select_null cols)) = sum_list_with missing cols.
Proof.
  induction cols as [|s cols IH]; [done|].
  simpl. by rewrite length_app, length_select_null, IH.
Qed.

Lemma check_database_resolved df :
  resolves execute_select df →
  check_database execute_select (Some df)
  = (map null_values_found (map name (with_null (columns df)))
     ++ (if decide (with_null (columns df) = []) then [no_null_value_found]
         else map null_row (concat (map select_null (columns df)))),
     None).
Proof.
  intros Hres. unfold check_database, table_info, labels. simpl.
  rewrite check_columns_resolved by done. simpl.
  destruct (concat (map select_null (columns df))) as [|row rest] eqn:Hrows.
  - apply select_null_concat_nil in Hrows. by rewrite decide_True.
  - rewrite decide_False; [done|].
    intros Hnil%select_null_concat_nil. by rewrite Hnil in Hrows.
Qed.

(** X10. When SQLite resolves the column names, the script never fails and prints:
    one header per column with a NULL cell, in column order; then either the
    line that no null value was found, when no column has one, or one line per
    NULL cell, column after column.  There are as many of these lines as the
    table has NULL cells, and each carries the number of its row, counted from
    1, and [None]. *)
Theorem check_database_report df :
  resolves execute_select df →
  ∃ null_rows,
    check_database execute_select (Some df)
    = (map null_values_found (map name (with_null (columns df)))
       ++ (if decide (with_null (columns df) = []) then [no_null_value_found]
           else map null_row null_rows),
       None) ∧
    null_rows = concat (map select_null (columns df)) ∧
    length null_rows = sum_list_with missing (columns df) ∧
    ∀ s r c, (r, c) ∈ select_null s
             ↔ c = None ∧ 1 ≤ r ∧ values s !! (r - 1) = Some None.
Proof.
  intros Hres. eexists. split; [by apply check_database_resolved|].
  split; [done|]. split; [apply length_select_null_concat|].
  intros s r c. apply elem_of_select_null_from.
Qed.

Lemma check_database_complete df :
  resolves execute_select df →
  (∀ s, s ∈ columns df → missing s = 0) →
  check_database execute_select (Some df) = ([no_null_value_found], None).
Proof.
  intros Hres Hcomplete%with_null_nil. rewrite check_database_resolved by done.
  rewrite Hcomplete. by rewrite decide_True.
Qed.

(** X11. The script prints only that no null value was found when the file
    holds no table; and, when SQLite resolves the column names, it prints only
    that line exactly when the table has no NULL cell. *)
Theorem check_database_no_null df :
  resolves execute_select df →
  check_database execute_select None = ([no_null_value_found], None) ∧
  (check_database execute_select (Some df) = ([no_null_value_found], None)
   ↔ ∀ s, s ∈ columns df → missing s = 0).
Proof.
  intros Hres. split; [done|]. rewrite check_database_resolved by done.
  rewrite <- with_null_nil. simpl. split.
  - destruct (with_null (columns df)) as [|s cols]; [done|].
    rewrite decide_False by done. simpl. intros Heq. by simplify_eq.
  - intros ->. by rewrite decide_True.
Qed.

Lemma getitem_NoDup df s :
  NoDup (labels df) → s ∈ columns df → getitem df (name s) = Ok s.
Proof.
  intros Hnd Hs. apply list_elem_of_lookup in Hs as [i Hi].
  destruct df as [n cols]. simpl in *.
  rewrite <- (take_drop_middle _ _ _ Hi). apply getitem_middle.
  unfold labels in Hnd. simpl in Hnd.
  rewrite <- (take_drop_middle _ _ _ Hi), fmap_app in Hnd.
  apply NoDup_app in Hnd as (_ & Hdisj & _).
  intros Hin. apply (Hdisj _ Hin). simpl. left.
Qed.

Lemma resolves_select_identifier df :
  NoDup (labels df) → resolves select_identifier df.
Proof.
  intros Hnd s Hs. unfold select_identifier. by rewrite getitem_NoDup.
Qed.

End check_database_theorems.

(** ** The script after a cleaning *)

Section check_after_clean.
Context {num : Type} `{!Scalar num} {image db : Type}.
Variable to_sql : DataFrame num → io db ().
Variable table : db → option (DataFrame num).
Variable execute_select : option (DataFrame num) → string → result (list (nat * cell num)).
Implicit Types (df : DataFrame num) (s : Series num) (d : db).

Lemma elem_of_getitem_mask_lookup {A} (mask : list bool) (l : list A) x :
  x ∈ getitem_mask mask l → ∃ i, mask !! i = Some true ∧ l !! i = Some x.
Proof.
  revert l. induction mask as [|b mask IH]; intros [|y l]; simpl;
    try (by intros ?%elem_of_nil).
  destruct b.
  - intros [->|Hx]%elem_of_cons; [by exists 0|].
    destruct (IH l Hx) as (i & ? & ?). by exists (S i).
  - intros Hx. destruct (IH l Hx) as (i & ? & ?). by exists (S i).
Qed.

Lemma notna_all_lookup df s i :
  s ∈ columns df → notna_all df !! i = Some true → values s !! i ≠ Some None.
Proof.
  unfold notna_all. induction (columns df) as [|s0 cols IH]; [by intros ?%elem_of_nil|].
  simpl. intros Hs Hi. apply lookup_zip_with_Some in Hi as (b & b' & Hand & Hb & Hb').
  symmetry in Hand. apply andb_true_iff in Hand as [-> ->].
  apply elem_of_cons in Hs as [->|Hs]; [|by apply IH].
  unfold notna in Hb. rewrite list_lookup_fmap in Hb.
  destruct (values s0 !! i) as [c|]; [|done]. simpl in Hb.
  injection Hb as Hb. apply bool_decide_eq_true in Hb. congruence.
Qed.

Lemma missing_dropna df s' : s' ∈ columns (dropna df) → missing s' = 0.
Proof.
  unfold dropna, loc. simpl. intros (s & -> & Hs)%list_elem_of_fmap.
  apply missing_0. simpl. intros (i & Hmask & Hi)%elem_of_getitem_mask_lookup.
  by apply (notna_all_lookup df s i).
Qed.

(** X12. After a cleaning with "fill" whose write went through and stored the
    table, the script, when SQLite resolves the column names, prints only that
    no null value was found. *)
Theorem check_database_after_fill df (X : string) sub_strategy d d' :
  to_sql (fillna (VStr X) df) d = (Ok (), d') →
  table d' = Some (fillna (VStr X) df) →
  resolves execute_select (fillna (VStr X) df) →
  clean_data (image:=image) to_sql (Ok df) "fill" (Some X) sub_strategy d = (Ok success, d') ∧
  check_database execute_select (table d') = ([no_null_value_found], None).
Proof.
  intros Hsql Htable Hres. split.
  - apply (clean_data_remediated to_sql df "fill" (Some X) sub_strategy
             (fillna (VStr X) df) d d'); [apply not_client_error_fill|done|done].
  - rewrite Htable. apply check_database_complete; [done|].
    intros s (s0 & -> & _)%list_elem_of_fmap. apply missing_Series_fillna.
Qed.

(** X13. After a cleaning with "drop" whose write went through and stored the
    table, the script, when SQLite resolves the column names, prints only that
    no null value was found. *)
Theorem check_database_after_drop df fill_value sub_strategy d d' :
  to_sql (dropna df) d = (Ok (), d') →
  table d' = Some (dropna df) →
  resolves execute_select (dropna df) →
  clean_data (image:=image) to_sql (Ok df) "drop" fill_value sub_strategy d = (Ok success, d') ∧
  check_database execute_select (table d') = ([no_null_value_found], None).
Proof.
  intros Hsql Htable Hres. split.
  - apply (clean_data_remediated to_sql df "drop" fill_value sub_strategy
             (dropna df) d d'); [apply not_client_error_drop|done|done].
  - rewrite Htable. apply check_database_complete; [done|].
    intros s Hs. by apply (missing_dropna df).
Qed.

End check_after_clean.

(** ** The client pages *)

Section client.
Context {num : Type} `{!Scalar num} {image db : Type}.
Variable to_sql : DataFrame num → io db ().
Implicit Types (df : DataFrame num) (s : Series num) (d : db).

(** X14. No request the Clean Data page can build is answered with a client-input
    error: the page offers the three strategies and the two sub-strategies of
    the handler and no other.  (A fill text that is empty is left out: what
    the server binds for an empty form field is not the handler's code.) *)
Theorem post_clean_data_valid file (c : strategy_choice) d :
  (∀ text, c = choose_fill text → text ≠ "") →
  ¬ ∃ message d',
      post_clean_data (image:=image) to_sql file c d = (Ok (json_error message 400), d').
Proof.
  intros _ (message & d' & Heq). unfold post_clean_data in Heq.
  assert (∀ strategy fill_value sub_strategy,
            ¬ client_error strategy fill_value sub_strategy →
            clean_data (image:=image) to_sql file strategy fill_value sub_strategy d
            ≠ (Ok (json_error message 400), d')) as Hvalid.
  { intros strategy fill_value sub_strategy Hce. rewrite clean_data_table.
    destruct file as [df|e]; [|discriminate].
    destruct (decide _); [done|].
    destruct (remediation _ _ _ df) as [df'|e]; [|discriminate].
    unfold stored. destruct (to_sql df' d) as [[[]|e] d'']; discriminate. }
  destruct c as [|text|[|]]; simpl in Heq; revert Heq; apply Hvalid.
  - apply not_client_error_drop.
  - apply not_client_error_fill.
  - apply not_client_error_mode.
  - apply not_client_error_median.
Qed.

Lemma getitem_selected include df label :
  NoDup (labels df) → label ∈ labels (select_dtypes include df) →
  ∃ s, getitem df label = Ok s ∧ s ∈ columns df ∧ include (dtype s) = true.
Proof.
  intros Hnd (s & -> & [Hsel Hs]%list_elem_of_filter)%list_elem_of_fmap.
  exists s. by rewrite getitem_NoDup.
Qed.

(** X15. The Data Visualization page offers the [object] columns as categorical
    column, the integer and float columns as numeric column, and 5 to 30
    categories.  For every such choice on a parsed table with at least one
    row, the series the page plots is computed without error and has at least
    one bar, at most as many bars as categories were asked for, and distinct
    labels. *)
Theorem client_chart df categorical_column numeric_column (N : nat) :
  parsed df → 0 < index df →
  categorical_column ∈ labels (select_dtypes object_or_category df) →
  numeric_column ∈ labels (select_dtypes number df) →
  5 ≤ N ≤ 30 →
  ∃ bars,
    chart df categorical_column numeric_column (Z.of_nat N) = Ok bars ∧
    1 ≤ length bars ≤ N ∧ NoDup bars.*1.
Proof.
  intros Hparsed Hrows Hcat Hnumc HN.
  assert (NoDup (labels df)) as Hnd by apply Hparsed.
  destruct (getitem_selected _ df _ Hnd Hcat) as (cat & Hgcat & Hcatin & Hobj).
  destruct (getitem_selected _ df _ Hnd Hnumc) as (numc & Hgnumc & _ & Hnum).
  destruct (chart_sums df _ _ N cat numc Hgcat Hgnumc Hnum) as (sums & Hchart & Hlabels & _).
  exists (sort_values_desc sums). split; [done|].
  assert ((sort_values_desc sums).*1 ≡ₚ top_labels N (values cat)) as Htop.
  { unfold sort_values_desc. by rewrite merge_sort_Permutation. }
  assert (nonnull (values cat) ≠ []) as Hvalue.
  { eapply parsed_object_value; [done..|]. by destruct (dtype cat). }
  assert (0 < length (unique (nonnull (values cat)))) as Hdistinct.
  { destruct (nonnull (values cat)); [done|]. simpl. lia. }
  split.
  - rewrite <- (length_fmap fst), Htop, length_top_labels. lia.
  - rewrite Htop. apply NoDup_top_labels.
Qed.

End client.

(** ** The further properties on concrete uploads *)

Lemma NoDup_labels_cars : NoDup (labels cars).
Proof. exact (proj1 (proj2 parsed_cars)). Defined.

Lemma clean_data_median_cars :
  NoDup (labels cars) ∧
  ∃ df', index df' = index cars ∧ labels df' = labels cars ∧
    ∀ d d', to_sql_replace df' d = (Ok (), d') →
      clean_data (image:=()) to_sql_replace (Ok cars) "fill with mode/median" None
                 (Some "Median") d = (Ok success, d').
Proof.
  split; [exact NoDup_labels_cars|].
  destruct (clean_data_median (image:=()) to_sql_replace cars None NoDup_labels_cars)
    as (df' & Hresponse & Hindex & Hlabels & _).
  exists df'. split; [exact Hindex|]. split; [exact Hlabels|exact Hresponse].
Defined.

Lemma clean_data_mode_cars :
  parsed cars ∧ 0 < index cars ∧
  ∃ df', index df' = index cars ∧ labels df' = labels cars ∧
    ∀ d d', to_sql_replace df' d = (Ok (), d') →
      clean_data (image:=()) to_sql_replace (Ok cars) "fill with mode/median" None
                 (Some "Mode") d = (Ok success, d').
Proof.
  assert (0 < index cars) as Hrows by (simpl; lia).
  split; [exact parsed_cars|]. split; [exact Hrows|].
  destruct (clean_data_mode (image:=()) to_sql_replace cars None parsed_cars Hrows)
    as (df' & Hresponse & Hindex & Hlabels & _).
  exists df'. split; [exact Hindex|]. split; [exact Hlabels|exact Hresponse].
Defined.

Lemma parsed_header_only : parsed header_only.
Proof. by apply (bool_decide_unpack (parsed header_only)). Defined.

Lemma clean_data_mode_no_rows_header_only :
  parsed header_only ∧ index header_only = 0 ∧
  Exists (λ s, dtype s = object) (columns header_only) ∧
  clean_data (image:=()) to_sql_replace (Ok header_only) "fill with mode/median" None
             (Some "Mode") (Some cars)
  = (Ok (json_error "0" 500), Some cars).
Proof.
  assert (Exists (λ s : Series Z, dtype s = object) (columns header_only)) as Hex
    by (apply Exists_cons_hd; reflexivity).
  split; [exact parsed_header_only|]. split; [reflexivity|]. split; [exact Hex|].
  exact (clean_data_mode_no_rows (image:=()) to_sql_replace header_only None (Some cars)
           parsed_header_only eq_refl Hex).
Defined.

Lemma fill_with_mode_least_manufacturer :
  Forall (λ c, text_cell c = true) (values manufacturer) ∧
  fill_with_mode manufacturer = Ok manufacturer_filled ∧
  ∃ t, values manufacturer_filled
       = map (λ c, Some (default (VStr t) c)) (values manufacturer) ∧
       Some (VStr t) ∈ values manufacturer ∧
       ∀ w, count_of w (nonnull (values manufacturer))
            ≤ count_of (VStr t) (nonnull (values manufacturer)).
Proof.
  assert (Forall (λ c : cell Z, text_cell c = true) (values manufacturer)) as Htext
    by (by apply (bool_decide_unpack (Forall _ _))).
  assert (fill_with_mode manufacturer = Ok manufacturer_filled) as Hfill by reflexivity.
  split; [exact Htext|]. split; [exact Hfill|].
  destruct (fill_with_mode_least manufacturer manufacturer_filled Htext Hfill)
    as (t & Hvalues & Hin & Hmost & _).
  exists t. split; [exact Hvalues|]. split; [exact Hin|exact Hmost].
Defined.

Lemma parsed_dropna_cars : parsed (dropna cars).
Proof. by apply (bool_decide_unpack (parsed (dropna cars))). Defined.

Lemma complete_dropna_cars : ∀ s, s ∈ columns (dropna cars) → missing s = 0.
Proof.
  apply Forall_forall. by apply (bool_decide_unpack (Forall _ _)).
Defined.

Lemma clean_data_complete_cars :
  parsed (dropna cars) ∧ 0 < index (dropna cars) ∧
  (∀ s, s ∈ columns (dropna cars) → missing s = 0) ∧
  ¬ client_error "fill" (Some "unknown") None ∧
  remediation "fill" (Some "unknown") None (dropna cars) = Ok (dropna cars).
Proof.
  assert (0 < index (dropna cars)) as Hrows by (vm_compute; lia).
  assert (¬ client_error "fill" (Some "unknown") None) as Hce
    by (by apply (bool_decide_unpack (¬ _))).
  split; [exact parsed_dropna_cars|]. split; [exact Hrows|].
  split; [exact complete_dropna_cars|]. split; [exact Hce|].
  exact (proj1 (clean_data_complete (image:=()) to_sql_replace (dropna cars) "fill"
                  (Some "unknown") None parsed_dropna_cars Hrows complete_dropna_cars Hce)).
Defined.

Lemma csv_overview_cars :
  csv_overview (image:=()) (Ok cars)
  = Ok (JSONResponse (overview_content 6 3 cars_summary cars_types
                        ["Manufacturer"; "Model"; "Sales_in_thousands"]) 200).
Proof. vm_compute. reflexivity. Defined.

Lemma csv_overview_success_cars :
  parsed cars ∧
  csv_overview (image:=()) (Ok cars)
  = Ok (JSONResponse (overview_content 6 3 cars_summary cars_types
                        ["Manufacturer"; "Model"; "Sales_in_thousands"]) 200) ∧
  ∀ s, s ∈ columns cars → cars_types !! name s = Some (dtype_name (dtype s)).
Proof.
  split; [exact parsed_cars|]. split; [exact csv_overview_cars|].
  destruct (csv_overview_success cars _ _ _ _ _ _ parsed_cars csv_overview_cars)
    as (_ & _ & _ & _ & Htypes & _).
  exact Htypes.
Defined.

Lemma numeric_cars : Exists (λ s, number (dtype s) = true) (columns cars).
Proof. do 2 apply Exists_cons_tl. apply Exists_cons_hd. reflexivity. Defined.

Lemma csv_overview_numeric_cars :
  parsed cars ∧ Exists (λ s, number (dtype s) = true) (columns cars) ∧
  csv_overview (image:=()) (Ok cars)
  = Ok (JSONResponse (overview_content 6 3 cars_summary cars_types
                        ["Manufacturer"; "Model"; "Sales_in_thousands"]) 200) ∧
  ∀ label, is_Some (cars_summary !! label)
           ↔ ∃ s, s ∈ columns cars ∧ name s = label ∧ number (dtype s) = true.
Proof.
  split; [exact parsed_cars|]. split; [exact numeric_cars|].
  split; [exact csv_overview_cars|].
  exact (csv_overview_numeric cars _ _ _ _ _ _ parsed_cars numeric_cars csv_overview_cars).
Defined.

Lemma parsed_one_row : parsed one_row.
Proof. by apply (bool_decide_unpack (parsed one_row)). Defined.

Lemma csv_overview_nan_one_row :
  parsed one_row ∧
  "std" ∈ ["mean"; "std"; "min"; "25%"; "50%"; "75%"; "max"] ∧
  num_stat "std" (numbers [Some (VNum 7%Z)]) = None ∧
  csv_overview (image:=()) (Ok one_row)
  = Ok (JSONResponse (error_content "Out of range float values are not JSON compliant") 400).
Proof.
  assert ("std" ∈ ["mean"; "std"; "min"; "25%"; "50%"; "75%"; "max"]) as Hlabel
    by (by apply (bool_decide_unpack (_ ∈ _))).
  split; [exact parsed_one_row|]. split; [exact Hlabel|]. split; [reflexivity|].
  apply (csv_overview_nan one_row (mkSeries "x" int64 [Some (VNum 7%Z)]) "std"
           parsed_one_row); [left|reflexivity|exact Hlabel|reflexivity].
Defined.

Lemma visualize_data_negative_top_n_cars :
  ∃ cat numc,
    getitem cars "Manufacturer" = Ok cat ∧
    getitem cars "Sales_in_thousands" = Ok numc ∧
    number (dtype numc) = true ∧ (-1 < 0)%Z ∧
    ∃ bars,
      visualize_data bars_image (Ok cars) "Manufacturer" "Sales_in_thousands" (-1)
      = Ok (StreamingResponse bars "image/png") ∧
      length bars = length (distinct_labels cat) - 1.
Proof.
  eexists _, _. split; [reflexivity|]. split; [reflexivity|]. split; [reflexivity|].
  assert (-1 < 0)%Z as Hneg by lia. split; [exact Hneg|].
  destruct (visualize_data_negative_top_n bars_image cars "Manufacturer"
              "Sales_in_thousands" (-1) _ _ eq_refl eq_refl eq_refl Hneg)
    as (bars & Hresponse & Hlen & _).
  exists bars. split; [exact Hresponse|exact Hlen].
Defined.

Lemma resolves_cars : resolves select_identifier cars.
Proof. exact (resolves_select_identifier cars NoDup_labels_cars). Defined.

Lemma check_database_report_cars :
  resolves select_identifier cars ∧
  check_database select_identifier (Some cars)
  = ([null_values_found "Manufacturer"; null_values_found "Sales_in_thousands";
      null_row (3, None); null_row (4, None)], None).
Proof.
  split; [exact resolves_cars|].
  destruct (check_database_report select_identifier cars resolves_cars)
    as (null_rows & Hreport & -> & _).
  exact Hreport.
Defined.

Lemma check_database_no_null_cars :
  resolves select_identifier cars ∧
  check_database (num:=Z) select_identifier None = ([no_null_value_found], None) ∧
  (check_database select_identifier (Some cars) = ([no_null_value_found], None)
   ↔ ∀ s, s ∈ columns cars → missing s = 0).
Proof.
  split; [exact resolves_cars|].
  exact (check_database_no_null select_identifier cars resolves_cars).
Defined.

Lemma resolves_cars_filled : resolves select_identifier cars_filled.
Proof.
  apply resolves_select_identifier. by apply (bool_decide_unpack (NoDup _)).
Defined.

Lemma check_database_after_fill_cars :
  to_sql_replace cars_filled None = (Ok (), Some cars_filled) ∧
  id (Some cars_filled) = Some cars_filled ∧
  resolves select_identifier cars_filled ∧
  check_database select_identifier (id (Some cars_filled)) = ([no_null_value_found], None).
Proof.
  split; [reflexivity|]. split; [reflexivity|]. split; [exact resolves_cars_filled|].
  exact (proj2 (check_database_after_fill (image:=()) to_sql_replace id select_identifier
                  cars "unknown" None None (Some cars_filled)
                  eq_refl eq_refl resolves_cars_filled)).
Defined.

Lemma resolves_cars_dropped : resolves select_identifier (dropna cars).
Proof.
  apply resolves_select_identifier. by apply (bool_decide_unpack (NoDup _)).
Defined.

Lemma check_database_after_drop_cars :
  to_sql_replace (dropna cars) None = (Ok (), Some (dropna cars)) ∧
  id (Some (dropna cars)) = Some (dropna cars) ∧
  resolves select_identifier (dropna cars) ∧
  check_database select_identifier (id (Some (dropna cars))) = ([no_null_value_found], None).
Proof.
  split; [reflexivity|]. split; [reflexivity|]. split; [exact resolves_cars_dropped|].
  exact (proj2 (check_database_after_drop (image:=()) to_sql_replace id select_identifier
                  cars None None None (Some (dropna cars))
                  eq_refl eq_refl resolves_cars_dropped)).
Defined.

Lemma post_clean_data_valid_median :
  (∀ text, choose_mode_median choose_Median = choose_fill text → text ≠ "") ∧
  ¬ ∃ message d',
      post_clean_data (image:=()) to_sql_replace (Ok cars)
                      (choose_mode_median choose_Median) None
      = (Ok (json_error message 400), d').
Proof.
  assert (∀ text, choose_mode_median choose_Median = choose_fill text → text ≠ "")
    as Htext by (intros text Heq; discriminate Heq).
  split; [exact Htext|].
  exact (post_clean_data_valid (image:=()) to_sql_replace (Ok cars)
           (choose_mode_median choose_Median) None Htext).
Defined.

Lemma client_chart_cars :
  parsed cars ∧ 0 < index cars ∧
  "Manufacturer" ∈ labels (select_dtypes object_or_category cars) ∧
  "Sales_in_thousands" ∈ labels (select_dtypes number cars) ∧
  5 ≤ 10 ≤ 30 ∧
  ∃ bars, chart cars "Manufacturer" "Sales_in_thousands" 10 = Ok bars ∧
          1 ≤ length bars ≤ 10.
Proof.
  assert (0 < index cars) as Hrows by (simpl; lia).
  assert ("Manufacturer" ∈ labels (select_dtypes object_or_category cars)) as Hcat
    by (by apply (bool_decide_unpack (_ ∈ _))).
  assert ("Sales_in_thousands" ∈ labels (select_dtypes number cars)) as Hnumc
    by (by apply (bool_decide_unpack (_ ∈ _))).
  assert (5 ≤ 10 ≤ 30) as HN by lia.
  split; [exact parsed_cars|]. split; [exact Hrows|]. split; [exact Hcat|].
  split; [exact Hnumc|]. split; [exact HN|].
  destruct (client_chart cars "Manufacturer" "Sales_in_thousands" 10
              parsed_cars Hrows Hcat Hnumc HN) as (bars & Hchart & Hlen & _).
  exists bars. split; [exact Hchart|exact Hlen].
Defined.
